(** * Mezzanine: the model loader and the camera navigation of main.cpp

    A shallow embedding of [src/main.cpp].  The C++ [float] is IEEE-754
    binary32 and is modelled by the Standard Library's [spec_float] with
    precision 24 and maximal exponent 128; a [double] literal is binary64
    (precision 53, maximal exponent 1024) and is rounded to binary32 where
    the source passes it to a [float] parameter or stores it in a [float]
    field.  The OpenGL matrix stack is an external collaborator: the only
    value read back from it, the forward vector, is an input of
    [handleKeyboard]. *)

From Stdlib Require Import ZArith List Bool Ascii String Lia.
From Stdlib Require Import Floats.SpecFloat.
Import ListNotations.

Local Open Scope string_scope.
Local Open Scope list_scope.
Local Open Scope Z_scope.

(** ** Floating point *)

Module Float32.

Definition float := spec_float.

Definition prec : Z := 24.
Definition emax : Z := 128.
Definition dprec : Z := 53.
Definition demax : Z := 1024.

Definition is_nan (f : float) : bool :=
  match f with S754_nan => true | _ => false end.

(** The value [m * 10^ex], correctly rounded (to nearest, ties to even)
    in the format [(p, em)]: what the compiler does with a decimal
    literal and what the C library does with a decimal numeral. *)
Definition of_decimal (p em : Z) (neg : bool) (m : Z) (ex : Z) : spec_float :=
  match m with
  | Zpos d =>
      match ex with
      | Zneg k => SFdiv p em (S754_finite neg d 0)
                              (S754_finite false (Pos.pow 10 k) 0)
      | Z0 => binary_round p em neg d 0
      | Zpos k => binary_round p em neg (d * Pos.pow 10 k) 0
      end
  | _ => S754_zero neg
  end.

(** A [double] literal [m * 10^ex] of the source text. *)
Definition double_lit (m : Z) (ex : Z) : spec_float :=
  of_decimal dprec demax (m <? 0) (Z.abs m) ex.

(** [double] to [float]: rounding to nearest, ties to even. *)
Definition of_double (d : spec_float) : float :=
  match d with
  | S754_finite s m e => binary_round prec emax s m e
  | _ => d
  end.

(** [float] to [double]: exact, the mantissa is only re-aligned. *)
Definition to_double (f : float) : spec_float :=
  match f with
  | S754_finite s m e => binary_round dprec demax s m e
  | _ => f
  end.

(** [int] to [float]. *)
Definition of_int (z : Z) : float := binary_normalize prec emax z 0 false.

(** A [double] literal used where a [float] is expected. *)
Definition lit (m : Z) (ex : Z) : float := of_double (double_lit m ex).

Definition add (a b : float) : float := SFadd prec emax a b.
Definition sub (a b : float) : float := SFsub prec emax a b.
Definition opp (a : float) : float := SFopp a.

Definition ltb (a b : float) : bool := SFltb a b.
Definition leb (a b : float) : bool := SFleb a b.
Definition gtb (a b : float) : bool := ltb b a.
Definition geb (a b : float) : bool := leb b a.

(** [a < d] with [a] a [float] and [d] a [double]: the usual arithmetic
    conversions promote [a]. *)
Definition ltb_double (a : float) (d : spec_float) : bool :=
  SFltb (to_double a) d.

End Float32.

Import Float32.

(** ** Classes *)

Record Point3 := mkPoint3 { x : float; y : float; z : float }.

(** The default constructor: [float x = 0, y = 0, z = 0]. *)
Definition Point3_default : Point3 := mkPoint3 (of_int 0) (of_int 0) (of_int 0).

Definition set_x (p : Point3) (v : float) : Point3 := mkPoint3 v (y p) (z p).
Definition set_y (p : Point3) (v : float) : Point3 := mkPoint3 (x p) v (z p).
Definition set_z (p : Point3) (v : float) : Point3 := mkPoint3 (x p) (y p) v.

(** ** Camera navigation *)

Definition clampFloat (value min max : float) : float :=
  if ltb value min then min
  else if gtb value max then max
  else value.

Definition between (value min max : float) : bool :=
  geb value min && leb value max.

(** [correctForBoundaries] on the global [cameraPos]; the two
    [glTranslatef] calls only touch the matrix stack. *)
Definition correctForBoundaries (cameraPos : Point3) : Point3 :=
  (* Base *)
  let cameraPos := set_x cameraPos (clampFloat (x cameraPos) (lit (-115) (-1)) (lit 115 (-1))) in
  let cameraPos := set_z cameraPos (clampFloat (z cameraPos) (of_int (-10)) (of_int 10)) in
  (* Mezzanine *)
  if ltb_double (y cameraPos) (double_lit (-753) (-2)) then
    if between (z cameraPos) (of_int (-10)) (lit (-464) (-2)) then
      (* in front of the stairs *)
      let cameraPos := set_x cameraPos (clampFloat (x cameraPos) (lit (-545) (-2)) (lit 115 (-1))) in
      if between (x cameraPos) (lit (-545) (-2)) (lit 45 (-1)) then
        (* beside the hole *)
        set_z cameraPos (clampFloat (z cameraPos) (of_int (-10)) (lit (-464) (-2)))
      else cameraPos
    else if between (z cameraPos) (lit 476 (-2)) (of_int 10) then
      (* opposite to the first stretch *)
      let cameraPos := set_x cameraPos (clampFloat (x cameraPos) (lit (-26) (-1)) (lit 115 (-1))) in
      if between (x cameraPos) (lit (-26) (-1)) (lit 45 (-1)) then
        (* beside the hole *)
        set_z cameraPos (clampFloat (z cameraPos) (lit 476 (-2)) (of_int 10))
      else cameraPos
    else if between (z cameraPos) (lit (-464) (-2)) (lit 476 (-2)) then
      (* in front of the hole *)
      set_x cameraPos (clampFloat (x cameraPos) (lit 45 (-1)) (lit 115 (-1)))
    else cameraPos
  else cameraPos.

(** The two trigger tests of [teleportIfNecessary]. *)
Definition lowerStairStep (p : Point3) : bool :=
  between (x p) (lit (-115) (-1)) (lit (-75) (-1))
  && between (z p) (lit (-25) (-1)) (lit (-15) (-1))
  && between (y p) (lit (-201) (-2)) (lit (-199) (-2)).

Definition upperStairStep (p : Point3) : bool :=
  between (x p) (lit (-332) (-2)) (lit (-232) (-2))
  && between (z p) (of_int (-10)) (lit (-75) (-1))
  && between (y p) (lit (-755) (-2)) (lit (-753) (-2)).

Definition upperFloor : Point3 :=
  mkPoint3 (lit 186 (-2)) (lit (-754) (-2)) (lit (-99) (-1)).

Definition lowerFloor : Point3 :=
  mkPoint3 (lit (-935) (-2)) (of_int (-2)) (of_int 0).

(** [teleportIfNecessary]: two [if] statements in sequence, the second one
    reads what the first one may have written. *)
Definition teleportIfNecessary (cameraPos : Point3) : Point3 :=
  (* Lower stair step -> upper floor *)
  let cameraPos := if lowerStairStep cameraPos then upperFloor else cameraPos in
  (* Upper stair step -> lower floor *)
  let cameraPos := if upperStairStep cameraPos then lowerFloor else cameraPos in
  cameraPos.

(** [handleKeyboard]: [forward] is what [getCameraForward] reads back from
    the modelview matrix.  [None] is [exit(0)]. *)
Definition handleKeyboard (key : ascii) (forward cameraPos : Point3) : option Point3 :=
  let moved :=
    if Ascii.eqb key "w" then
      let c := set_x cameraPos (add (x cameraPos) (x forward)) in
      Some (set_z c (add (z c) (z forward)))
    else if Ascii.eqb key "s" then
      let c := set_x cameraPos (sub (x cameraPos) (x forward)) in
      Some (set_z c (sub (z c) (z forward)))
    else if Ascii.eqb key "a" then
      let c := set_x cameraPos (add (x cameraPos) (z forward)) in
      Some (set_z c (sub (z c) (x forward)))
    else if Ascii.eqb key "d" then
      let c := set_x cameraPos (sub (x cameraPos) (z forward)) in
      Some (set_z c (add (z c) (x forward)))
    else if Ascii.eqb key "q" then None
    else Some cameraPos in
  match moved with
  | Some c => Some (teleportIfNecessary (correctForBoundaries c))
  | None => None
  end.

(** [handleMouseMotion] on the global [cameraRotationY] and the static
    [prevX]: the new rotation and the new [prevX]. *)
Definition handleMouseMotion (mx : Z) (prevX : Z) (cameraRotationY : float) : float * Z :=
  let cameraRotationY :=
    if mx <? prevX then
      (* Mouse moved to the left *)
      if geb cameraRotationY (of_int 359) then of_int 0
      else add cameraRotationY (of_int 1)
    else
      (* Mouse moved to the right *)
      if leb cameraRotationY (of_int 0) then of_int 359
      else sub cameraRotationY (of_int 1) in
  (cameraRotationY, mx).

(** ** The model loader *)

(** [None] is an [int] that was never written: an array element of a
    [Face] that [sscanf_s] did not reach. *)
Definition int := option Z.

Record Face := mkFace { vertexIds : list int; normalIds : list int }.

(** A [Face] as declared, [int vertexIds[4]; int normalIds[4];], before
    anything is stored in it. *)
Definition Face_default : Face := mkFace (repeat None 4) (repeat None 4).

Record Obj := mkObj {
  name : string;
  vertices : list Point3;
  normals : list Point3;
  faces : list Face
}.

(** The default constructor: an empty name and three empty vectors. *)
Definition Obj_default : Obj := mkObj EmptyString [] [] [].

(** What [readFile] sends to [cout], one constructor per statement. *)
Inductive Output :=
| out_point (point : Point3)
| out_face (ids : list int)
| out_invalid (line : string)
| out_name (n : string).

(** *** The C library's [sscanf]

    The formats of [readFile] use ordinary characters, white space, [%f]
    and [%d].  The fields are read as the GNU C library reads them in the
    C locale.  A [%f] field takes a sign and then [nan], [inf] or
    [infinity] (in any case), or a hexadecimal numeral after [0x], or a
    decimal numeral; an exponent letter after a digit is taken with the
    sign that follows it even when no digit comes next, and counts for
    nothing then.  The value is rounded to the nearest [float].  A [%d]
    field is a signed decimal numeral, read as a [long] of 64 bits
    (saturating) and stored as an [int] (the low 32 bits). *)

Definition is_space (c : ascii) : bool :=
  let n := N_of_ascii c in
  (n =? 32)%N || ((9 <=? n)%N && (n <=? 13)%N).

Definition digit (c : ascii) : option Z :=
  let n := N_of_ascii c in
  if (48 <=? n)%N && (n <=? 57)%N then Some (Z.of_N n - 48) else None.

Fixpoint skip_space (s : list ascii) : list ascii :=
  match s with
  | c :: s' => if is_space c then skip_space s' else s
  | [] => []
  end.

(** The digits at the head of [s]: the number read after [acc], how many
    digits were read after [n], and the rest. *)
Fixpoint scan_digits (s : list ascii) (acc n : Z) : Z * Z * list ascii :=
  match s with
  | c :: s' =>
      match digit c with
      | Some d => scan_digits s' (10 * acc + d) (n + 1)
      | None => (acc, n, s)
      end
  | [] => (acc, n, [])
  end.

Definition scan_sign (s : list ascii) : bool * list ascii :=
  match s with
  | c :: s' =>
      if Ascii.eqb c "-" then (true, s')
      else if Ascii.eqb c "+" then (false, s')
      else (false, s)
  | [] => (false, [])
  end.

Definition to_lower (c : ascii) : ascii :=
  let n := N_of_ascii c in
  if (65 <=? n)%N && (n <=? 90)%N then ascii_of_N (n + 32) else c.

Definition xdigit (c : ascii) : option Z :=
  match digit c with
  | Some d => Some d
  | None =>
      let n := N_of_ascii (to_lower c) in
      if (97 <=? n)%N && (n <=? 102)%N then Some (Z.of_N n - 87) else None
  end.

(** [scan_digits] for hexadecimal digits. *)
Fixpoint scan_xdigits (s : list ascii) (acc n : Z) : Z * Z * list ascii :=
  match s with
  | c :: s' =>
      match xdigit c with
      | Some d => scan_xdigits s' (16 * acc + d) (n + 1)
      | None => (acc, n, s)
      end
  | [] => (acc, n, [])
  end.

(** What follows [word] at the head of [s], whatever the case of the
    letters of [s]; [word] is in lower case. *)
Fixpoint after_word (word s : list ascii) : option (list ascii) :=
  match word with
  | [] => Some s
  | w :: word' =>
      match s with
      | c :: s' => if Ascii.eqb (to_lower c) w then after_word word' s' else None
      | [] => None
      end
  end.

(** [strtol] saturates in [long]; the store into an [int] keeps the low
    32 bits. *)
Definition to_long (v : Z) : Z := Z.max (- 2 ^ 63) (Z.min v (2 ^ 63 - 1)).

Definition long_to_int (v : Z) : Z := (v + 2 ^ 31) mod 2 ^ 32 - 2 ^ 31.

Definition scan_int (s : list ascii) : option (int * list ascii) :=
  let (neg, s1) := scan_sign (skip_space s) in
  let '(v, n, rest) := scan_digits s1 0 0 in
  if n =? 0 then None
  else Some (Some (long_to_int (to_long (if neg then - v else v))), rest).

(** After the exponent letter: a sign and digits, both taken; the
    exponent is 0 when there is no digit. *)
Definition scan_exponent (s : list ascii) : Z * list ascii :=
  let (neg, s1) := scan_sign s in
  let '(v, n, rest) := scan_digits s1 0 0 in
  (if n =? 0 then 0 else if neg then - v else v, rest).

(** Digits with at most one point among them: the number made of all the
    digits, how many digits, how many of them after the point, whether a
    point was taken, and the rest. *)
Definition scan_mantissa (hex : bool) (s : list ascii) : Z * Z * Z * bool * list ascii :=
  let digits := if hex then scan_xdigits else scan_digits in
  let '(m1, n1, s1) := digits s 0 0 in
  match s1 with
  | c :: s' =>
      if Ascii.eqb c "." then
        let '(m, n2, s2) := digits s' m1 0 in (m, n1 + n2, n2, true, s2)
      else (m1, n1, 0, false, s1)
  | [] => (m1, n1, 0, false, s1)
  end.

(** The value [m * 2^ex], rounded to the nearest [float]. *)
Definition of_binary (neg : bool) (m : Z) (ex : Z) : float :=
  match m with
  | Zpos d => binary_round prec emax neg d ex
  | _ => S754_zero neg
  end.

(** A numeral after its sign, and after [0x] when [hex].  Without a digit
    there is no number, except that [0x.] is taken and read as 0. *)
Definition scan_number (hex neg : bool) (s : list ascii) : option (float * list ascii) :=
  let '(m, n, k, dot, s1) := scan_mantissa hex s in
  if n =? 0 then
    if hex && dot then Some (S754_zero neg, s1) else None
  else
    let (e, rest) :=
      match s1 with
      | c :: s' =>
          if Ascii.eqb (to_lower c) (if hex then "p" else "e")
          then scan_exponent s' else (0, s1)
      | [] => (0, s1)
      end in
    Some (if hex then of_binary neg m (e - 4 * k)
          else of_decimal prec emax neg m (e - k), rest).

Definition scan_float (s : list ascii) : option (float * list ascii) :=
  let (neg, s1) := scan_sign (skip_space s) in
  match s1 with
  | [] => None
  | c :: s2 =>
      if Ascii.eqb (to_lower c) "n" then
        match after_word ["a"; "n"]%char s2 with
        | Some rest => Some (S754_nan, rest)
        | None => None
        end
      else if Ascii.eqb (to_lower c) "i" then
        match after_word ["n"; "f"]%char s2 with
        | Some s3 =>
            match s3 with
            | c' :: s4 =>
                if Ascii.eqb (to_lower c') "i" then
                  match after_word ["n"; "i"; "t"; "y"]%char s4 with
                  | Some rest => Some (S754_infinity neg, rest)
                  | None => None
                  end
                else Some (S754_infinity neg, s3)
            | [] => Some (S754_infinity neg, s3)
            end
        | None => None
        end
      else if Ascii.eqb c "0" then
        match s2 with
        | c2 :: s3 =>
            if Ascii.eqb (to_lower c2) "x" then scan_number true neg s3
            else scan_number false neg s1
        | [] => scan_number false neg s1
        end
      else scan_number false neg s1
  end.

Inductive directive := ordinary (c : ascii) | white | conv_f | conv_d.

Fixpoint directives (format : list ascii) : list directive :=
  match format with
  | c :: format' =>
      match format' with
      | k :: format'' =>
          if Ascii.eqb c "%" && Ascii.eqb k "f" then conv_f :: directives format''
          else if Ascii.eqb c "%" && Ascii.eqb k "d" then conv_d :: directives format''
          else (if is_space c then white else ordinary c) :: directives format'
      | [] => [if is_space c then white else ordinary c]
      end
  | [] => []
  end.

Inductive value := float_value (f : float) | int_value (i : int).

(** The values assigned, in order; the scan stops at the first directive
    that does not match. *)
Fixpoint scan (input : list ascii) (format : list directive) : list value :=
  match format with
  | [] => []
  | ordinary c :: format' =>
      match input with
      | c' :: input' => if Ascii.eqb c c' then scan input' format' else []
      | [] => []
      end
  | white :: format' => scan (skip_space input) format'
  | conv_f :: format' =>
      match scan_float input with
      | Some (f, input') => float_value f :: scan input' format'
      | None => []
      end
  | conv_d :: format' =>
      match scan_int input with
      | Some (i, input') => int_value i :: scan input' format'
      | None => []
      end
  end.

(** [sscanf_s(buffer, format, targets...)]: each assigned value goes to the
    next target, the targets not reached keep what they held. *)
Fixpoint store {T : Type} (targets : list (value -> T -> T)) (vals : list value) (t : T) : T :=
  match targets, vals with
  | target :: targets', v :: vals' => store targets' vals' (target v t)
  | _, _ => t
  end.

Definition sscanf_s {T : Type} (buffer : string) (format : string)
    (targets : list (value -> T -> T)) (t : T) : T :=
  store targets
    (scan (list_ascii_of_string buffer) (directives (list_ascii_of_string format))) t.

Definition to_x (v : value) (p : Point3) : Point3 :=
  match v with float_value f => set_x p f | int_value _ => p end.
Definition to_y (v : value) (p : Point3) : Point3 :=
  match v with float_value f => set_y p f | int_value _ => p end.
Definition to_z (v : value) (p : Point3) : Point3 :=
  match v with float_value f => set_z p f | int_value _ => p end.

Fixpoint update {A : Type} (l : list A) (i : nat) (a : A) : list A :=
  match l, i with
  | _ :: l', O => a :: l'
  | b :: l', S i' => b :: update l' i' a
  | [], _ => []
  end.

Definition to_vertexId (j : nat) (v : value) (f : Face) : Face :=
  match v with
  | int_value i => mkFace (update (vertexIds f) j i) (normalIds f)
  | float_value _ => f
  end.
Definition to_normalId (j : nat) (v : value) (f : Face) : Face :=
  match v with
  | int_value i => mkFace (vertexIds f) (update (normalIds f) j i)
  | float_value _ => f
  end.

(** *** [Obj::readFile] *)

(** [line[i]]: the character at [size()] is the terminating null. *)
Definition char_at (line : string) (i : nat) : ascii :=
  match String.get i line with Some c => c | None => Ascii.zero end.

(** [line.substr(1)]. *)
Definition substr1 (line : string) : string :=
  String.substring 1 (String.length line - 1) line.

Definition scan_normal (line : string) : Point3 :=
  sscanf_s line "vn %f %f %f" [to_x; to_y; to_z] Point3_default.

Definition scan_vertex (line : string) : Point3 :=
  sscanf_s line "v %f %f %f" [to_x; to_y; to_z] Point3_default.

Definition scan_face (line : string) : Face :=
  sscanf_s line "f %d//%d %d//%d %d//%d %d//%d"
    [to_vertexId 0; to_normalId 0; to_vertexId 1; to_normalId 1;
     to_vertexId 2; to_normalId 2; to_vertexId 3; to_normalId 3] Face_default.

(** One turn of the [while (getline(file, line))] loop. *)
Definition readLine (this : Obj) (line : string) : Obj * list Output :=
  (* Ignore comments *)
  if Ascii.eqb (char_at line 0) "#" then (this, [])
  else if Ascii.eqb (char_at line 0) "o" then
    (* name *)
    (mkObj (substr1 line) (vertices this) (normals this) (faces this), [])
  else if Ascii.eqb (char_at line 0) "v" then
    if Ascii.eqb (char_at line 1) "n" then
      (* normal vector *)
      let point := scan_normal line in
      (mkObj (name this) (vertices this) (normals this ++ [point]) (faces this),
       [out_point point])
    else
      (* vertex *)
      let point := scan_vertex line in
      (mkObj (name this) (vertices this ++ [point]) (normals this) (faces this),
       [out_point point])
  else if Ascii.eqb (char_at line 0) "f" then
    (* face *)
    let face := scan_face line in
    (mkObj (name this) (vertices this) (normals this) (faces this ++ [face]),
     [out_face (vertexIds face)])
  else (this, [out_invalid line]).

Fixpoint readLines (this : Obj) (file : list string) : Obj * list Output :=
  match file with
  | [] => (this, [])
  | line :: file' =>
      let (this1, out1) := readLine this line in
      let (this2, out2) := readLines this1 file' in
      (this2, out1 ++ out2)
  end.

(** [readFile] on the lines that [getline] delivers; a file that could not
    be opened delivers none. *)
Definition readFile (this : Obj) (file : list string) : Obj * list Output :=
  let (this1, out) := readLines this file in
  (this1, out ++ [out_name (name this1)]).

(** *** [Obj::toBuffer] *)

Inductive GLcall :=
| glBegin_QUADS
| glNormal3f (nx ny nz : float)
| glVertex3f (vx vy vz : float)
| glEnd.

(** [v[i - 1]] on a [vector]; [None] is an access outside of it, or through
    an [int] that was never written. *)
Definition at_minus_1 {A : Type} (v : list A) (i : int) : option A :=
  match i with
  | Some i =>
      if (0 <=? i - 1) && (i - 1 <? Z.of_nat (List.length v))
      then nth_error v (Z.to_nat (i - 1))
      else None
  | None => None
  end.

(** The body of the inner loop, for corner [j] of [face]. *)
Definition corner (this : Obj) (face : Face) (j : nat) : option (list GLcall) :=
  match at_minus_1 (vertices this) (nth j (vertexIds face) None) with
  | Some vertex =>
      match at_minus_1 (normals this) (nth j (normalIds face) None) with
      | Some normal =>
          Some [glNormal3f (x normal) (y normal) (z normal);
                glVertex3f (x vertex) (y vertex) (z vertex)]
      | None => None
      end
  | None => None
  end.

Fixpoint for_each {A B : Type} (f : A -> option (list B)) (l : list A) : option (list B) :=
  match l with
  | [] => Some []
  | a :: l' =>
      match f a with
      | Some bs =>
          match for_each f l' with
          | Some bs' => Some (bs ++ bs')
          | None => None
          end
      | None => None
      end
  end.

Definition toBuffer (this : Obj) : option (list GLcall) :=
  match for_each (fun face => for_each (corner this face) [0; 1; 2; 3]%nat) (faces this) with
  | Some calls => Some (glBegin_QUADS :: calls ++ [glEnd])
  | None => None
  end.

(** An index that [toBuffer] can resolve in a vector of [n] elements. *)
Definition resolves (n : nat) (i : int) : Prop :=
  exists k, i = Some k /\ 1 <= k <= Z.of_nat n.

Definition face_resolves (this : Obj) (face : Face) : Prop :=
  forall j, (j < 4)%nat ->
    resolves (List.length (vertices this)) (nth j (vertexIds face) None) /\
    resolves (List.length (normals this)) (nth j (normalIds face) None).

(** A line whose first character selects none of the four branches of the
    loop. *)
Definition unsupported (line : string) : bool :=
  negb (Ascii.eqb (char_at line 0) "#" || Ascii.eqb (char_at line 0) "o"
        || Ascii.eqb (char_at line 0) "v" || Ascii.eqb (char_at line 0) "f").

(** The four lines of the parsing sample. *)
Definition sample_file : list string :=
  ["o Test"; "v 1 2 3"; "vn 0 1 0"; "f 1//1 1//1 1//1 1//1"].

(** The vocabulary of the movement rule: a displacement acts on the
    horizontal plane, [rotate90] maps [(x, _, z)] to [(z, _, -x)]. *)
Definition rotate90 (f : Point3) : Point3 := mkPoint3 (z f) (y f) (opp (x f)).

Definition move_by (p v : Point3) : Point3 :=
  mkPoint3 (add (x p) (x v)) (y p) (add (z p) (z v)).

Definition move_back (p v : Point3) : Point3 :=
  mkPoint3 (sub (x p) (x v)) (y p) (sub (z p) (z v)).

(** The rotations the mouse can produce, starting from [init]'s
    [cameraRotationY = 0]. *)
Inductive yaw_reachable : float -> Prop :=
| yaw_init : yaw_reachable (of_int 0)
| yaw_step (mx prevX : Z) (r : float) :
    yaw_reachable r -> yaw_reachable (fst (handleMouseMotion mx prevX r)).

Definition float_eq_dec (a b : float) : {a = b} + {a <> b}.
Proof.
  decide equality; first [apply Z.eq_dec | apply Pos.eq_dec | apply Bool.bool_dec].
Defined.

(** One degree of the table behind the yaw rule: at rotation [n] a move to
    the left gives [(n + 1) mod 360], any other sample [(n - 1) mod 360]. *)
Definition yaw_row (n : Z) : bool :=
  (if float_eq_dec (fst (handleMouseMotion 0 1 (of_int n))) (of_int ((n + 1) mod 360))
   then true else false)
  && (if float_eq_dec (fst (handleMouseMotion 0 0 (of_int n))) (of_int ((n - 1) mod 360))
      then true else false).

(** ** The rest of the program *)

(** [init]: [cameraPos = new Point3(0, -2, 0)]. *)
Definition init_cameraPos : Point3 := mkPoint3 (of_int 0) (of_int (-2)) (of_int 0).

(** The positions the keyboard can produce from [init]'s, when every
    forward vector read back from the matrix satisfies [ok]. *)
Inductive camera_reachable (ok : Point3 -> Prop) : Point3 -> Prop :=
| camera_init : camera_reachable ok init_cameraPos
| camera_key (key : ascii) (forward p r : Point3) :
    camera_reachable ok p -> ok forward ->
    handleKeyboard key forward p = Some r ->
    camera_reachable ok r.

Definition any_forward (forward : Point3) : Prop := True.

Definition numeric_forward (forward : Point3) : Prop :=
  is_nan (x forward) = false /\ is_nan (z forward) = false.

(** A key that reaches the [default] label of [handleKeyboard]. *)
Definition other_key (key : ascii) : bool :=
  negb (Ascii.eqb key "w" || Ascii.eqb key "s" || Ascii.eqb key "a"
        || Ascii.eqb key "d" || Ascii.eqb key "q").

(** The hole of the mezzanine floor: [x < 4.5] and [-4.64 < z < 4.76]. *)
Definition over_hole (p : Point3) : bool :=
  ltb (x p) (lit 45 (-1)) && ltb (lit (-464) (-2)) (z p) && ltb (z p) (lit 476 (-2)).

(** [handleMouseMotion] on a run of pointer samples; the static [prevX]
    starts at 0. *)
Fixpoint mouse_samples (samples : list Z) (prevX : Z) (cameraRotationY : float) : float * Z :=
  match samples with
  | [] => (cameraRotationY, prevX)
  | mx :: samples' =>
      let (rotation, prev) := handleMouseMotion mx prevX cameraRotationY in
      mouse_samples samples' prev rotation
  end.

(** Moves to the left minus the other samples of a run. *)
Fixpoint net_left (samples : list Z) (prevX : Z) : Z :=
  match samples with
  | [] => 0
  | mx :: samples' => (if mx <? prevX then 1 else - 1) + net_left samples' mx
  end.

(** The branch of the loop of [readFile] that a line takes. *)
Inductive Kind := k_comment | k_name | k_normal | k_vertex | k_face | k_invalid.

Definition line_kind (line : string) : Kind :=
  if Ascii.eqb (char_at line 0) "#" then k_comment
  else if Ascii.eqb (char_at line 0) "o" then k_name
  else if Ascii.eqb (char_at line 0) "v" then
    if Ascii.eqb (char_at line 1) "n" then k_normal else k_vertex
  else if Ascii.eqb (char_at line 0) "f" then k_face
  else k_invalid.

Definition Kind_eqb (a b : Kind) : bool :=
  match a, b with
  | k_comment, k_comment | k_name, k_name | k_normal, k_normal
  | k_vertex, k_vertex | k_face, k_face | k_invalid, k_invalid => true
  | _, _ => false
  end.

Definition of_kind (k : Kind) (line : string) : bool := Kind_eqb (line_kind line) k.

(** The name after the [o] lines of a file: the last one wins. *)
Definition last_name (file : list string) (n : string) : string :=
  fold_left (fun n line => if of_kind k_name line then substr1 line else n) file n.

(** [Obj(const char* filename)] on the lines of the file. *)
Definition Obj_of_file (file : list string) : Obj := fst (readFile Obj_default file).

(** [std::map<string, Obj>] as the list of its entries; [insert] leaves the
    map alone when the key is already there, [find] of a missing key is
    [end()]. *)
Definition objects_map := list (string * Obj).

Fixpoint map_find (key : string) (m : objects_map) : option Obj :=
  match m with
  | [] => None
  | (k, o) :: m' => if String.eqb key k then Some o else map_find key m'
  end.

Definition map_insert (key : string) (o : Obj) (m : objects_map) : objects_map :=
  match map_find key m with
  | Some _ => m
  | None => m ++ [(key, o)]
  end.

(** The three [objects.insert] of [main]; [files] gives the lines of a
    file by its name. *)
Definition main_objects (files : string -> list string) : objects_map :=
  let objects := map_insert "bottom" (Obj_of_file (files "mezzanine_bottom.obj")) [] in
  let objects := map_insert "stairs" (Obj_of_file (files "mezzanine_stairs.obj")) objects in
  let objects := map_insert "top" (Obj_of_file (files "mezzanine_top.obj")) objects in
  objects.

Inductive DrawCall :=
| glClear
| glColor3f (r g b : float)
| buffer (calls : list GLcall)
| glutSwapBuffers.

(** [objects.find(key)->second.toBuffer()]; [None] is the dereference of
    [end()] or an access outside a vector. *)
Definition draw_object (objects : objects_map) (key : string) : option (list GLcall) :=
  match map_find key objects with
  | Some o => toBuffer o
  | None => None
  end.

Definition draw (objects : objects_map) : option (list DrawCall) :=
  match draw_object objects "bottom" with
  | Some bottom =>
      match draw_object objects "stairs" with
      | Some stairs =>
          match draw_object objects "top" with
          | Some top =>
              Some [glClear;
                    glColor3f (lit 5 (-1)) (lit 5 (-1)) (of_int 1); buffer bottom;
                    glColor3f (lit 5 (-1)) (lit 5 (-1)) (lit 5 (-1)); buffer stairs;
                    glColor3f (lit 5 (-1)) (of_int 1) (lit 5 (-1)); buffer top;
                    glutSwapBuffers]
          | None => None
          end
      | None => None
      end
  | None => None
  end.

(** A number: a zero or a finite value, neither NaN nor an infinity. *)
Definition is_finite (f : float) : bool :=
  match f with
  | S754_zero _ | S754_finite _ _ _ => true
  | _ => false
  end.

(** ** The constants of the source, as binary32 values *)

Section Literals.

Example lit_11_5 : lit 115 (-1) = S754_finite false 12058624 (-20).
Proof. reflexivity. Qed.

Example lit_minus_4_64 : lit (-464) (-2) = S754_finite true 9730785 (-21).
Proof. reflexivity. Qed.

Example lit_4_76 : lit 476 (-2) = S754_finite false 9982444 (-21).
Proof. reflexivity. Qed.

Example lit_minus_7_53 : lit (-753) (-2) = S754_finite true 15791555 (-21).
Proof. reflexivity. Qed.

(** The [double] -7.53 of the mezzanine test lies above the [float] nearest
    to -7.53, so that [float] itself passes the test. *)
Example double_minus_7_53 :
  double_lit (-753) (-2) = S754_finite true 8478026298524959 (-50) /\
  to_double (lit (-753) (-2)) = S754_finite true 8478026534748160 (-50) /\
  ltb_double (lit (-753) (-2)) (double_lit (-753) (-2)) = true.
Proof. repeat split. Qed.

Example of_int_359 : of_int 359 = S754_finite false 11763712 (-15).
Proof. reflexivity. Qed.

End Literals.

(** ** The order of binary32 values *)

Section Order.

Ltac split_compare :=
  repeat match goal with
  | |- context [Z.compare ?a ?b] => destruct (Z.compare_spec a b)
  | H : context [Z.compare ?a ?b] |- _ => destruct (Z.compare_spec a b)
  | |- context [Pos.compare_cont Eq ?a ?b] =>
      change (Pos.compare_cont Eq a b) with (Pos.compare a b);
      destruct (Pos.compare_spec a b)
  | H : context [Pos.compare_cont Eq ?a ?b] |- _ =>
      change (Pos.compare_cont Eq a b) with (Pos.compare a b) in H;
      destruct (Pos.compare_spec a b)
  end.

Ltac order_cases :=
  unfold gtb, geb, leb, ltb, SFleb, SFltb, SFcompare, is_nan;
  intros;
  repeat match goal with
  | f : float |- _ => destruct f as [[]|[]| |[] ? ?]
  | f : spec_float |- _ => destruct f as [[]|[]| |[] ? ?]
  end;
  try reflexivity; try discriminate;
  split_compare; simpl in *;
  try reflexivity; try discriminate; try lia.

Lemma leb_refl a : is_nan a = false -> leb a a = true.
Proof. order_cases. Qed.

Lemma leb_total a b :
  is_nan a = false -> is_nan b = false -> ltb a b = false -> leb b a = true.
Proof. order_cases. Qed.

Lemma leb_not_nan a b : leb a b = true -> is_nan a = false /\ is_nan b = false.
Proof. order_cases; split; reflexivity. Qed.

Lemma leb_not_gt a b : leb a b = true -> ltb b a = false.
Proof. order_cases. Qed.

Lemma leb_trans a b c : leb a b = true -> leb b c = true -> leb a c = true.
Proof. order_cases. Qed.

Lemma ltb_leb_trans a b c : ltb a b = true -> leb b c = true -> ltb a c = true.
Proof. order_cases. Qed.

Lemma leb_ltb_trans a b c : leb a b = true -> ltb b c = true -> ltb a c = true.
Proof. order_cases. Qed.

Lemma ltb_leb a b : ltb a b = true -> leb a b = true.
Proof. order_cases. Qed.

Lemma ltb_not_geb a b : ltb a b = true -> leb b a = false.
Proof. order_cases. Qed.

End Order.

(** ** [clampFloat] and [between] *)

Section Clamp.

Lemma ltb_irrefl a : ltb a a = false.
Proof.
  unfold ltb, SFltb, SFcompare.
  destruct a as [[]|[]| |[] m e]; try reflexivity;
    rewrite Z.compare_refl;
    change (Pos.compare_cont Eq m m) with (Pos.compare m m);
    rewrite Pos.compare_refl; reflexivity.
Qed.

Lemma clampFloat_fix v lo hi :
  ltb v lo = false -> gtb v hi = false -> clampFloat v lo hi = v.
Proof. unfold clampFloat. intros -> ->. reflexivity. Qed.

Lemma clampFloat_not_outside v lo hi :
  leb lo hi = true ->
  ltb (clampFloat v lo hi) lo = false /\ gtb (clampFloat v lo hi) hi = false.
Proof.
  intros Hle. unfold clampFloat, gtb.
  destruct (ltb v lo) eqn:Hlo.
  - split; [apply ltb_irrefl | apply leb_not_gt; exact Hle].
  - destruct (ltb hi v) eqn:Hhi.
    + split; [apply leb_not_gt; exact Hle | apply ltb_irrefl].
    + split; assumption.
Qed.

Lemma not_below_widen v lo lo' :
  leb lo' lo = true -> ltb v lo = false -> ltb v lo' = false.
Proof.
  intros Hlo Hv. destruct (ltb v lo') eqn:E; [|reflexivity].
  rewrite (ltb_leb_trans _ _ _ E Hlo) in Hv. discriminate.
Qed.

Lemma not_above_widen v hi hi' :
  leb hi hi' = true -> gtb v hi = false -> gtb v hi' = false.
Proof.
  unfold gtb. intros Hhi Hv. destruct (ltb hi' v) eqn:E; [|reflexivity].
  rewrite (leb_ltb_trans _ _ _ Hhi E) in Hv. discriminate.
Qed.

Lemma between_not_outside v lo hi :
  between v lo hi = true -> ltb v lo = false /\ gtb v hi = false.
Proof.
  unfold between, geb, gtb. intros H. apply andb_prop in H as [H1 H2].
  split; apply leb_not_gt; assumption.
Qed.

Lemma between_fix v lo hi : between v lo hi = true -> clampFloat v lo hi = v.
Proof. intros H. apply between_not_outside in H as [H1 H2]. apply clampFloat_fix; assumption. Qed.

Lemma not_outside_between v lo hi :
  is_nan v = false -> is_nan lo = false -> is_nan hi = false ->
  ltb v lo = false -> gtb v hi = false -> between v lo hi = true.
Proof.
  unfold between, geb, gtb. intros Hv Hl Hh H1 H2.
  rewrite (leb_total v lo), (leb_total hi v); auto.
Qed.

Lemma clampFloat_nan v lo hi :
  is_nan lo = false -> is_nan hi = false ->
  is_nan (clampFloat v lo hi) = is_nan v.
Proof.
  intros Hl Hh. unfold clampFloat.
  destruct (ltb v lo) eqn:E1.
  - destruct v; try discriminate; auto.
  - destruct (gtb v hi) eqn:E2; [|reflexivity].
    destruct v; try discriminate; auto. destruct hi; discriminate.
Qed.

Lemma clampFloat_between v lo hi :
  is_nan v = false -> leb lo hi = true -> between (clampFloat v lo hi) lo hi = true.
Proof.
  intros Hv Hle. destruct (leb_not_nan _ _ Hle) as [Hl Hh].
  destruct (clampFloat_not_outside v lo hi Hle) as [H1 H2].
  apply not_outside_between; auto.
  rewrite clampFloat_nan; auto.
Qed.

Lemma between_widen v lo hi lo' hi' :
  leb lo' lo = true -> leb hi hi' = true ->
  between v lo hi = true -> between v lo' hi' = true.
Proof.
  unfold between, geb. intros Hlo Hhi H. apply andb_prop in H as [H1 H2].
  rewrite (leb_trans _ _ _ Hlo H1), (leb_trans _ _ _ H2 Hhi). reflexivity.
Qed.

End Clamp.

(** ** [correctForBoundaries] *)

Section Boundaries.

(** What one pass leaves in [x] and [z] is a fixed point of the base clamp
    and of the clamp of its own zone. *)
Ltac fix_clamp :=
  repeat match goal with
  | |- context [clampFloat ?v ?lo ?hi] =>
      rewrite (clampFloat_fix v lo hi) by
        (first [ assumption
               | eapply not_below_widen; [| eassumption]; reflexivity
               | eapply not_above_widen; [| eassumption]; reflexivity ])
  end.

(** C4: the boundary clamp is idempotent: clamping a clamped position
    changes nothing, for every position (NaN components included). *)
Theorem correctForBoundaries_idempotent p :
  correctForBoundaries (correctForBoundaries p) = correctForBoundaries p.
Proof.
  destruct p as [x0 y0 z0].
  unfold correctForBoundaries at 2 3. cbv [x y z set_x set_z].
  set (x1 := clampFloat x0 _ _). set (z1 := clampFloat z0 _ _).
  destruct (clampFloat_not_outside x0 (lit (-115) (-1)) (lit 115 (-1)) eq_refl) as [Hx1 Hx1'].
  destruct (clampFloat_not_outside z0 (of_int (-10)) (of_int 10) eq_refl) as [Hz1 Hz1'].
  fold x1 in Hx1, Hx1'. fold z1 in Hz1, Hz1'. clearbody x1 z1.
  destruct (ltb_double y0 _) eqn:Hy.
  - destruct (between z1 (of_int (-10)) (lit (-464) (-2))) eqn:Hza.
    + destruct (clampFloat_not_outside x1 (lit (-545) (-2)) (lit 115 (-1)) eq_refl) as [Hx2 Hx2'].
      set (x2 := clampFloat x1 _ _) in *. clearbody x2.
      rewrite (between_fix _ _ _ Hza).
      assert (E : (if between x2 (lit (-545) (-2)) (lit 45 (-1)) then mkPoint3 x2 y0 z1 else mkPoint3 x2 y0 z1) = mkPoint3 x2 y0 z1) by (destruct (between x2 _ _); reflexivity).
      rewrite E.
      unfold correctForBoundaries. cbv [x y z set_x set_z].
      fix_clamp. rewrite Hy, Hza. rewrite (between_fix _ _ _ Hza). exact E.
    + destruct (between z1 (lit 476 (-2)) (of_int 10)) eqn:Hzb.
      * destruct (clampFloat_not_outside x1 (lit (-26) (-1)) (lit 115 (-1)) eq_refl) as [Hx2 Hx2'].
        set (x2 := clampFloat x1 _ _) in *. clearbody x2.
        rewrite (between_fix _ _ _ Hzb).
        assert (E : (if between x2 (lit (-26) (-1)) (lit 45 (-1)) then mkPoint3 x2 y0 z1 else mkPoint3 x2 y0 z1) = mkPoint3 x2 y0 z1) by (destruct (between x2 _ _); reflexivity).
        rewrite E.
        unfold correctForBoundaries. cbv [x y z set_x set_z].
        fix_clamp. rewrite Hy, Hza, Hzb. rewrite (between_fix _ _ _ Hzb). exact E.
      * destruct (between z1 (lit (-464) (-2)) (lit 476 (-2))) eqn:Hzc.
        -- destruct (clampFloat_not_outside x1 (lit 45 (-1)) (lit 115 (-1)) eq_refl) as [Hx2 Hx2'].
           set (x2 := clampFloat x1 _ _) in *. clearbody x2.
           unfold correctForBoundaries. cbv [x y z set_x set_z].
           fix_clamp. rewrite Hy, Hza, Hzb, Hzc. reflexivity.
        -- unfold correctForBoundaries. cbv [x y z set_x set_z].
           fix_clamp. rewrite Hy, Hza, Hzb, Hzc. reflexivity.
  - unfold correctForBoundaries. cbv [x y z set_x set_z].
    fix_clamp. rewrite Hy. reflexivity.
Qed.

Lemma correctForBoundaries_nan_x :
  let p := mkPoint3 S754_nan (of_int (-2)) (of_int 0) in
  x (correctForBoundaries p) = S754_nan /\
  between (x (correctForBoundaries p)) (lit (-115) (-1)) (lit 115 (-1)) = false.
Proof. vm_compute. split; reflexivity. Qed.

(** C1, amended: the clamped [x] lies in [-11.5, 11.5] whenever the [x] given
    is not NaN, and the clamped [z] lies in [-10, 10] whenever the [z] given
    is not NaN. *)
Theorem correctForBoundaries_footprint p :
  (is_nan (x p) = false ->
   between (x (correctForBoundaries p)) (lit (-115) (-1)) (lit 115 (-1)) = true) /\
  (is_nan (z p) = false ->
   between (z (correctForBoundaries p)) (of_int (-10)) (of_int 10) = true).
Proof.
  destruct p as [x0 y0 z0]. cbv [x y z].
  unfold correctForBoundaries. cbv [x y z set_x set_z].
  set (x1 := clampFloat x0 (lit (-115) (-1)) (lit 115 (-1))).
  set (z1 := clampFloat z0 (of_int (-10)) (of_int 10)).
  split.
  - intros Hx0.
    pose proof (clampFloat_between x0 (lit (-115) (-1)) (lit 115 (-1)) Hx0 eq_refl) as Hx1.
    fold x1 in Hx1.
    assert (Nx1 : is_nan x1 = false).
    { apply andb_prop in Hx1 as [_ H]. apply leb_not_nan in H. tauto. }
    clearbody x1 z1.
    assert (Wx : forall lo, leb (lit (-115) (-1)) lo = true -> leb lo (lit 115 (-1)) = true ->
                 between (clampFloat x1 lo (lit 115 (-1))) (lit (-115) (-1)) (lit 115 (-1)) = true).
    { intros lo H1 H2. apply (between_widen _ lo (lit 115 (-1))); [exact H1 | reflexivity |].
      apply clampFloat_between; assumption. }
    repeat match goal with
    | |- context [if ?c then _ else _] => destruct c
    end; cbv [x]; first [ assumption | apply Wx; reflexivity ].
  - intros Hz0.
    pose proof (clampFloat_between z0 (of_int (-10)) (of_int 10) Hz0 eq_refl) as Hz1.
    fold z1 in Hz1.
    assert (Nz1 : is_nan z1 = false).
    { apply andb_prop in Hz1 as [_ H]. apply leb_not_nan in H. tauto. }
    clearbody x1 z1.
    assert (Wz : forall lo hi, leb (of_int (-10)) lo = true -> leb lo hi = true ->
                 leb hi (of_int 10) = true ->
                 between (clampFloat z1 lo hi) (of_int (-10)) (of_int 10) = true).
    { intros lo hi H1 H2 H3. apply (between_widen _ lo hi); [exact H1 | exact H3 |].
      apply clampFloat_between; assumption. }
    repeat match goal with
    | |- context [if ?c then _ else _] => destruct c
    end; cbv [z]; first [ assumption | apply Wz; reflexivity ].
Qed.

Lemma correctForBoundaries_footprint_witness :
  let p := mkPoint3 (of_int 100) (of_int (-8)) (of_int (-100)) in
  is_nan (x p) = false /\ is_nan (z p) = false /\
  between (x (correctForBoundaries p)) (lit (-115) (-1)) (lit 115 (-1)) = true /\
  between (z (correctForBoundaries p)) (of_int (-10)) (of_int 10) = true.
Proof.
  intros p. destruct (correctForBoundaries_footprint p) as [Hx Hz].
  split; [reflexivity|]. split; [reflexivity|].
  split; [apply Hx | apply Hz]; reflexivity.
Defined.

Lemma correctForBoundaries_hole_edge :
  let p := mkPoint3 (of_int 0) (of_int (-8)) (lit (-464) (-2)) in
  ltb_double (y p) (double_lit (-753) (-2)) = true /\
  between (z p) (lit (-464) (-2)) (lit 476 (-2)) = true /\
  x (correctForBoundaries p) = of_int 0 /\
  between (x (correctForBoundaries p)) (lit 45 (-1)) (lit 115 (-1)) = false.
Proof. vm_compute. repeat split. Qed.

(** C3, amended: on the mezzanine ([y < -7.53]), for [z] strictly between
    -4.64 and 4.76 (the two ends belong to the strips of the earlier
    branches) and [x] not NaN, the clamped [x] lies in [4.5, 11.5]. *)
Theorem correctForBoundaries_hole p :
  ltb_double (y p) (double_lit (-753) (-2)) = true ->
  ltb (lit (-464) (-2)) (z p) = true -> ltb (z p) (lit 476 (-2)) = true ->
  is_nan (x p) = false ->
  between (x (correctForBoundaries p)) (lit 45 (-1)) (lit 115 (-1)) = true.
Proof.
  destruct p as [x0 y0 z0]. cbv [x y z]. intros Hy Hlo Hhi Hx0.
  unfold correctForBoundaries. cbv [x y z set_x set_z].
  assert (Ez : clampFloat z0 (of_int (-10)) (of_int 10) = z0).
  { apply clampFloat_fix.
    - apply leb_not_gt, ltb_leb.
      apply (leb_ltb_trans _ (lit (-464) (-2))); [reflexivity | exact Hlo].
    - apply leb_not_gt, ltb_leb.
      apply (ltb_leb_trans _ (lit 476 (-2))); [exact Hhi | reflexivity]. }
  assert (Ha : between z0 (of_int (-10)) (lit (-464) (-2)) = false).
  { unfold between. rewrite (ltb_not_geb _ _ Hlo). apply andb_false_r. }
  assert (Hb : between z0 (lit 476 (-2)) (of_int 10) = false).
  { unfold between, geb. rewrite (ltb_not_geb _ _ Hhi). reflexivity. }
  assert (Hc : between z0 (lit (-464) (-2)) (lit 476 (-2)) = true).
  { unfold between, geb. rewrite (ltb_leb _ _ Hlo), (ltb_leb _ _ Hhi). reflexivity. }
  rewrite Ez, Hy, Ha, Hb, Hc.
  apply clampFloat_between; [|reflexivity].
  rewrite clampFloat_nan; auto.
Qed.

Lemma correctForBoundaries_hole_witness :
  let p := mkPoint3 (of_int 0) (of_int (-8)) (of_int 0) in
  ltb_double (y p) (double_lit (-753) (-2)) = true /\
  ltb (lit (-464) (-2)) (z p) = true /\ ltb (z p) (lit 476 (-2)) = true /\
  is_nan (x p) = false /\
  between (x (correctForBoundaries p)) (lit 45 (-1)) (lit 115 (-1)) = true.
Proof.
  intros p. repeat (split; [reflexivity|]).
  apply (correctForBoundaries_hole p); reflexivity.
Defined.

End Boundaries.

(** ** [teleportIfNecessary] *)

Section Teleport.

Lemma between_disjoint v lo hi lo' hi' :
  leb lo hi' = false -> between v lo hi = true -> between v lo' hi' = false.
Proof.
  unfold between, geb. intros Hgap H. apply andb_prop in H as [H1 _].
  destruct (leb v hi') eqn:E; [|apply andb_false_r].
  rewrite (leb_trans _ _ _ H1 E) in Hgap. discriminate.
Qed.

Lemma triggers_disjoint p : lowerStairStep p = true -> upperStairStep p = false.
Proof.
  unfold lowerStairStep, upperStairStep. intros H.
  apply andb_prop in H as [_ Hy].
  rewrite (between_disjoint (y p) (lit (-201) (-2)) (lit (-199) (-2))
             (lit (-755) (-2)) (lit (-753) (-2)) eq_refl Hy).
  apply andb_false_r.
Qed.

Lemma teleportIfNecessary_cases p :
  teleportIfNecessary p =
  if lowerStairStep p then upperFloor
  else if upperStairStep p then lowerFloor else p.
Proof.
  unfold teleportIfNecessary. destruct (lowerStairStep p); reflexivity.
Qed.

(** C2, amended: a position inside the lower trigger box goes to
    (1.86, -7.54, -9.9), one inside the upper trigger box to (-9.35, -2, 0),
    any other position is unchanged, and no position is inside both boxes.
    (-9, -2, -2) goes to (1.86, -7.54, -9.9); (-2.8, -7.54, -7.6) goes to
    (-9.35, -2, 0); (-2.8, -2, -7.6), whose [y] is outside the upper box, and
    (0, 0, 0) are unchanged. *)
Theorem teleportIfNecessary_triggers :
  (forall p, teleportIfNecessary p =
             if lowerStairStep p then upperFloor
             else if upperStairStep p then lowerFloor else p) /\
  (forall p, lowerStairStep p && upperStairStep p = false) /\
  teleportIfNecessary (mkPoint3 (of_int (-9)) (of_int (-2)) (of_int (-2))) = upperFloor /\
  teleportIfNecessary (mkPoint3 (lit (-28) (-1)) (lit (-754) (-2)) (lit (-76) (-1))) = lowerFloor /\
  teleportIfNecessary (mkPoint3 (lit (-28) (-1)) (of_int (-2)) (lit (-76) (-1))) =
    mkPoint3 (lit (-28) (-1)) (of_int (-2)) (lit (-76) (-1)) /\
  teleportIfNecessary (mkPoint3 (of_int 0) (of_int 0) (of_int 0)) =
    mkPoint3 (of_int 0) (of_int 0) (of_int 0).
Proof.
  split; [exact teleportIfNecessary_cases|].
  split.
  { intros p. destruct (lowerStairStep p) eqn:E; [|reflexivity].
    rewrite (triggers_disjoint p E). reflexivity. }
  repeat split; vm_compute; reflexivity.
Qed.

(** C10: neither destination is inside either trigger box, so the second
    test never fires on what the first one wrote, and checking twice is the
    same as checking once. *)
Theorem teleportIfNecessary_idempotent :
  lowerStairStep upperFloor = false /\ upperStairStep upperFloor = false /\
  lowerStairStep lowerFloor = false /\ upperStairStep lowerFloor = false /\
  forall p, teleportIfNecessary (teleportIfNecessary p) = teleportIfNecessary p.
Proof.
  assert (H1 : lowerStairStep upperFloor = false) by (vm_compute; reflexivity).
  assert (H2 : upperStairStep upperFloor = false) by (vm_compute; reflexivity).
  assert (H3 : lowerStairStep lowerFloor = false) by (vm_compute; reflexivity).
  assert (H4 : upperStairStep lowerFloor = false) by (vm_compute; reflexivity).
  repeat split; try assumption.
  intros p. rewrite (teleportIfNecessary_cases p).
  destruct (lowerStairStep p) eqn:E1.
  - rewrite teleportIfNecessary_cases, H1, H2. reflexivity.
  - destruct (upperStairStep p) eqn:E2.
    + rewrite teleportIfNecessary_cases, H3, H4. reflexivity.
    + rewrite teleportIfNecessary_cases, E1, E2. reflexivity.
Qed.

Lemma teleportIfNecessary_second_sample :
  teleportIfNecessary (mkPoint3 (lit (-28) (-1)) (of_int (-2)) (lit (-76) (-1))) <> lowerFloor.
Proof. vm_compute. discriminate. Qed.

End Teleport.

(** ** [handleKeyboard] *)

Section Keyboard.

Lemma sub_add_opp a b : sub a b = add a (opp b).
Proof.
  unfold sub, add, opp, SFsub, SFadd, SFopp.
  destruct a as [[]|[]| |sa ma ea], b as [[]|[]| |sb mb eb]; try reflexivity.
  f_equal. destruct sb; cbn [negb cond_Zopp]; lia.
Qed.

Lemma add_sub_opp a b : add a b = sub a (opp b).
Proof.
  unfold sub, add, opp, SFsub, SFadd, SFopp.
  destruct a as [[]|[]| |sa ma ea], b as [[]|[]| |[] mb eb]; try reflexivity;
    f_equal; cbn [negb cond_Zopp]; lia.
Qed.

(** C5: [w] adds the forward vector to the position, [s] subtracts it, [a]
    adds its quarter turn and [d] subtracts it, on the horizontal plane; the
    boundary clamp and then the teleport check follow each of them. *)
Theorem handleKeyboard_moves forward cameraPos :
  handleKeyboard "w" forward cameraPos =
    Some (teleportIfNecessary (correctForBoundaries (move_by cameraPos forward))) /\
  handleKeyboard "s" forward cameraPos =
    Some (teleportIfNecessary (correctForBoundaries (move_back cameraPos forward))) /\
  handleKeyboard "a" forward cameraPos =
    Some (teleportIfNecessary (correctForBoundaries (move_by cameraPos (rotate90 forward)))) /\
  handleKeyboard "d" forward cameraPos =
    Some (teleportIfNecessary (correctForBoundaries (move_back cameraPos (rotate90 forward)))).
Proof.
  unfold handleKeyboard, move_by, move_back, rotate90.
  cbv [Ascii.eqb Bool.eqb x y z set_x set_z].
  rewrite <- sub_add_opp, <- add_sub_opp. repeat split.
Qed.

End Keyboard.

(** ** [handleMouseMotion] *)

Section Mouse.

Lemma handleMouseMotion_left mx prevX r :
  mx < prevX ->
  fst (handleMouseMotion mx prevX r) = fst (handleMouseMotion 0 1 r).
Proof.
  intros H. unfold handleMouseMotion.
  apply Z.ltb_lt in H. rewrite H. reflexivity.
Qed.

Lemma handleMouseMotion_right mx prevX r :
  prevX <= mx ->
  fst (handleMouseMotion mx prevX r) = fst (handleMouseMotion 0 0 r).
Proof.
  intros H. unfold handleMouseMotion.
  apply Z.ltb_ge in H. rewrite H. reflexivity.
Qed.

Lemma yaw_table : forallb yaw_row (map Z.of_nat (seq 0 360)) = true.
Proof. vm_compute. reflexivity. Qed.

Lemma yaw_row_ok n : 0 <= n <= 359 -> yaw_row n = true.
Proof.
  intros H. apply (proj1 (forallb_forall _ _) yaw_table).
  apply in_map_iff. exists (Z.to_nat n). split; [lia|].
  apply in_seq. lia.
Qed.

Lemma yaw_degree n :
  0 <= n <= 359 ->
  fst (handleMouseMotion 0 1 (of_int n)) = of_int ((n + 1) mod 360) /\
  fst (handleMouseMotion 0 0 (of_int n)) = of_int ((n - 1) mod 360).
Proof.
  intros H. apply yaw_row_ok in H. unfold yaw_row in H.
  apply andb_prop in H as [H1 H2].
  destruct (float_eq_dec _ _) as [E1|]; [|discriminate].
  destruct (float_eq_dec _ _) as [E2|]; [|discriminate].
  split; assumption.
Qed.

Lemma yaw_reachable_degree r :
  yaw_reachable r -> exists n, 0 <= n <= 359 /\ r = of_int n.
Proof.
  induction 1 as [|mx prevX r _ [n [Hn ->]]].
  - exists 0. split; [lia | reflexivity].
  - destruct (yaw_degree n Hn) as [Hl Hr].
    destruct (Z.lt_ge_cases mx prevX) as [C|C].
    + exists ((n + 1) mod 360). split; [pose proof (Z.mod_pos_bound (n + 1) 360); lia|].
      rewrite (handleMouseMotion_left _ _ _ C). exact Hl.
    + exists ((n - 1) mod 360). split; [pose proof (Z.mod_pos_bound (n - 1) 360); lia|].
      rewrite (handleMouseMotion_right _ _ _ C). exact Hr.
Qed.

(** C9: every rotation reachable from 0 is a whole number [n] of [0, 359];
    a move to the left gives [(n + 1) mod 360], so 0 at 359, and any other
    sample gives [(n - 1) mod 360], so 359 at 0. *)
Theorem handleMouseMotion_yaw r :
  yaw_reachable r ->
  exists n, 0 <= n <= 359 /\ r = of_int n /\
    (forall mx prevX, mx < prevX ->
       fst (handleMouseMotion mx prevX r) = of_int ((n + 1) mod 360)) /\
    (forall mx prevX, prevX <= mx ->
       fst (handleMouseMotion mx prevX r) = of_int ((n - 1) mod 360)) /\
    (n = 359 -> forall mx prevX, mx < prevX ->
       fst (handleMouseMotion mx prevX r) = of_int 0) /\
    (n = 0 -> forall mx prevX, prevX <= mx ->
       fst (handleMouseMotion mx prevX r) = of_int 359).
Proof.
  intros Hr. destruct (yaw_reachable_degree r Hr) as [n [Hn ->]].
  destruct (yaw_degree n Hn) as [Hl Hg].
  exists n. repeat split; try lia.
  - intros mx prevX C. rewrite (handleMouseMotion_left _ _ _ C). exact Hl.
  - intros mx prevX C. rewrite (handleMouseMotion_right _ _ _ C). exact Hg.
  - intros -> mx prevX C. rewrite (handleMouseMotion_left _ _ _ C). reflexivity.
  - intros -> mx prevX C. rewrite (handleMouseMotion_right _ _ _ C). reflexivity.
Qed.

Lemma handleMouseMotion_yaw_witness :
  exists n, 0 <= n <= 359 /\ of_int 0 = of_int n /\
    (forall mx prevX, mx < prevX ->
       fst (handleMouseMotion mx prevX (of_int 0)) = of_int ((n + 1) mod 360)) /\
    (forall mx prevX, prevX <= mx ->
       fst (handleMouseMotion mx prevX (of_int 0)) = of_int ((n - 1) mod 360)) /\
    (n = 359 -> forall mx prevX, mx < prevX ->
       fst (handleMouseMotion mx prevX (of_int 0)) = of_int 0) /\
    (n = 0 -> forall mx prevX, prevX <= mx ->
       fst (handleMouseMotion mx prevX (of_int 0)) = of_int 359).
Proof. apply (handleMouseMotion_yaw (of_int 0)). exact yaw_init. Defined.

End Mouse.

(** ** [Obj::readFile] *)

Section Loader.

Lemma readLines_app this file1 file2 :
  readLines this (file1 ++ file2) =
  (fst (readLines (fst (readLines this file1)) file2),
   snd (readLines this file1) ++ snd (readLines (fst (readLines this file1)) file2)).
Proof.
  revert this. induction file1 as [|line file1 IH]; intros this.
  - cbn [app readLines fst snd]. destruct (readLines this file2). reflexivity.
  - cbn [app readLines].
    destruct (readLine this line) as [this1 out1].
    rewrite IH.
    destruct (readLines this1 file1) as [this2 out2]. cbn [fst snd].
    rewrite app_assoc. reflexivity.
Qed.

Lemma readLine_unsupported this line :
  unsupported line = true -> readLine this line = (this, [out_invalid line]).
Proof.
  unfold unsupported, readLine. intros H.
  apply negb_true_iff in H.
  apply orb_false_elim in H as [H Hf].
  apply orb_false_elim in H as [H Hv].
  apply orb_false_elim in H as [Hc Ho].
  rewrite Hc, Ho, Hv, Hf. reflexivity.
Qed.

Lemma fst_readFile this file : fst (readFile this file) = fst (readLines this file).
Proof. unfold readFile. destruct (readLines this file). reflexivity. Qed.

Lemma snd_readFile this file :
  snd (readFile this file) =
  snd (readLines this file) ++ [out_name (name (fst (readLines this file)))].
Proof. unfold readFile. destruct (readLines this file). reflexivity. Qed.

(** C6, amended: a line whose first character is none of [#], [o], [v],
    [f] is reported as invalid and skipped: the loop goes on and the object
    read is the one read without that line.  (A [v], [vn] or [f] line that
    does not scan is not reported and still appends an element.) *)
Theorem readFile_skips_unsupported this before line after :
  unsupported line = true ->
  (forall o, readLine o line = (o, [out_invalid line])) /\
  fst (readFile this (before ++ line :: after)) = fst (readFile this (before ++ after)) /\
  In (out_invalid line) (snd (readFile this (before ++ line :: after))).
Proof.
  intros H. split; [intros o; apply readLine_unsupported; exact H|].
  rewrite !fst_readFile, snd_readFile, !readLines_app. cbn [fst snd readLines].
  rewrite (readLine_unsupported _ _ H).
  destruct (readLines (fst (readLines this before)) after) as [o out] eqn:E.
  cbn [fst snd]. split; [reflexivity|].
  apply in_or_app. left. apply in_or_app. right. left. reflexivity.
Qed.

Lemma readFile_skips_unsupported_witness :
  unsupported "x garbage" = true /\
  (forall o, readLine o "x garbage" = (o, [out_invalid "x garbage"])) /\
  fst (readFile Obj_default (["v 1 2 3"] ++ "x garbage" :: ["vn 0 1 0"])) =
    fst (readFile Obj_default (["v 1 2 3"] ++ ["vn 0 1 0"])) /\
  In (out_invalid "x garbage")
     (snd (readFile Obj_default (["v 1 2 3"] ++ "x garbage" :: ["vn 0 1 0"]))).
Proof.
  split; [reflexivity|].
  apply (readFile_skips_unsupported Obj_default ["v 1 2 3"] "x garbage" ["vn 0 1 0"]).
  reflexivity.
Defined.

Lemma readFile_garbage_vertex :
  scan (list_ascii_of_string "v garbage")
       (directives (list_ascii_of_string "v %f %f %f")) = [] /\
  List.length (vertices Obj_default) = 0%nat /\
  List.length (vertices (fst (readFile Obj_default ["v garbage"]))) = 1%nat /\
  snd (readFile Obj_default ["v garbage"]) = [out_point Point3_default; out_name ""].
Proof. vm_compute. repeat split. Qed.

(** C7, amended: the sample file gives the name " Test", the vertex (1, 2, 3),
    the normal (0, 1, 0) and one face whose stored indices are the 1-based
    [1, 1, 1, 1] of the file; [toBuffer] subtracts 1 when it resolves them,
    so each corner reads element 0. *)
Theorem readFile_sample :
  fst (readFile Obj_default sample_file) =
    mkObj " Test"
      [mkPoint3 (of_int 1) (of_int 2) (of_int 3)]
      [mkPoint3 (of_int 0) (of_int 1) (of_int 0)]
      [mkFace [Some 1; Some 1; Some 1; Some 1] [Some 1; Some 1; Some 1; Some 1]] /\
  at_minus_1 (vertices (fst (readFile Obj_default sample_file))) (Some 1) =
    nth_error (vertices (fst (readFile Obj_default sample_file))) 0 /\
  at_minus_1 (normals (fst (readFile Obj_default sample_file))) (Some 1) =
    nth_error (normals (fst (readFile Obj_default sample_file))) 0 /\
  toBuffer (fst (readFile Obj_default sample_file)) =
    Some ([glBegin_QUADS]
          ++ List.concat (repeat [glNormal3f (of_int 0) (of_int 1) (of_int 0);
                             glVertex3f (of_int 1) (of_int 2) (of_int 3)] 4)
          ++ [glEnd]).
Proof. vm_compute. repeat split. Qed.

Lemma readFile_sample_stored_indices :
  faces (fst (readFile Obj_default sample_file)) <>
    [mkFace [Some 0; Some 0; Some 0; Some 0] [Some 0; Some 0; Some 0; Some 0]].
Proof. vm_compute. discriminate. Qed.

End Loader.

(** ** [Obj::toBuffer] *)

Section Buffer.

Lemma at_minus_1_resolves {A : Type} (v : list A) (i : int) :
  at_minus_1 v i <> None <-> resolves (List.length v) i.
Proof.
  unfold at_minus_1, resolves. destruct i as [k|].
  - destruct ((0 <=? k - 1) && (k - 1 <? Z.of_nat (List.length v))) eqn:E.
    + apply andb_prop in E as [E1 E2].
      apply Z.leb_le in E1. apply Z.ltb_lt in E2. split.
      * intros _. exists k. split; [reflexivity | lia].
      * intros _. apply nth_error_Some. lia.
    + split; [intros H; contradiction H; reflexivity|].
      intros [k' [Hk Hr]]. injection Hk as <-.
      apply andb_false_iff in E as [E|E];
        [apply Z.leb_gt in E | apply Z.ltb_ge in E]; lia.
  - split; [intros H; contradiction H; reflexivity|].
    intros [k [Hk _]]. discriminate.
Qed.

Lemma for_each_some {A B : Type} (f : A -> option (list B)) (l : list A) :
  for_each f l <> None <-> Forall (fun a => f a <> None) l.
Proof.
  induction l as [|a l IH]; cbn [for_each].
  - split; [constructor | discriminate].
  - destruct (f a) as [bs|] eqn:Ea.
    + destruct (for_each f l) as [bs'|].
      * split; [|discriminate]. intros _. constructor.
        -- rewrite Ea. discriminate.
        -- apply IH. discriminate.
      * split; [intros H; contradiction H; reflexivity|].
        intros H. inversion H as [|? ? _ Hl]. apply IH in Hl. contradiction Hl. reflexivity.
    + split; [intros H; contradiction H; reflexivity|].
      intros H. inversion H as [|? ? Hf _]. rewrite Ea in Hf. exact Hf.
Qed.

Lemma corner_resolves this face j :
  corner this face j <> None <->
  resolves (List.length (vertices this)) (nth j (vertexIds face) None) /\
  resolves (List.length (normals this)) (nth j (normalIds face) None).
Proof.
  rewrite <- !at_minus_1_resolves. unfold corner.
  destruct (at_minus_1 (vertices this) _); destruct (at_minus_1 (normals this) _);
    split; try discriminate; try (intros H; contradiction H; reflexivity);
    try (intros [H1 H2]; first [contradiction H1; reflexivity | contradiction H2; reflexivity]).
  intros _. split; discriminate.
Qed.

Lemma face_resolves_corners this face :
  for_each (corner this face) [0; 1; 2; 3]%nat <> None <-> face_resolves this face.
Proof.
  rewrite for_each_some. unfold face_resolves. split.
  - intros H j Hj. rewrite Forall_forall in H.
    apply corner_resolves. apply H.
    destruct j as [|[|[|[|j]]]]; cbn; auto; lia.
  - intros H. repeat constructor; apply corner_resolves; apply H; lia.
Qed.

Lemma toBuffer_resolves this :
  toBuffer this <> None <-> Forall (face_resolves this) (faces this).
Proof.
  unfold toBuffer.
  assert (E : for_each (fun face => for_each (corner this face) [0; 1; 2; 3]%nat) (faces this) <> None
              <-> Forall (face_resolves this) (faces this)).
  { rewrite for_each_some. rewrite !Forall_forall.
    split; intros H f Hf; apply face_resolves_corners, H, Hf. }
  rewrite <- E.
  destruct (for_each _ (faces this)); split; try discriminate; auto.
Qed.

(** C8: the code does not keep this.  The file whose only line is
    [f 5//5 5//5 5//5 5//5] is read without any diagnostic into an object
    with no vertex, no normal and one face whose indices are all 5; no
    index of that face resolves, and [toBuffer] then reads [vertices[4]]
    outside the empty vector. *)
Theorem readFile_index_out_of_range :
  let face := mkFace [Some 5; Some 5; Some 5; Some 5] [Some 5; Some 5; Some 5; Some 5] in
  let loaded := fst (readFile Obj_default ["f 5//5 5//5 5//5 5//5"]) in
  readFile Obj_default ["f 5//5 5//5 5//5 5//5"] =
    (mkObj "" [] [] [face], [out_face (vertexIds face); out_name ""]) /\
  at_minus_1 (vertices loaded) (nth 0 (vertexIds face) None) = None /\
  ~ face_resolves loaded face /\
  toBuffer loaded = None.
Proof.
  cbv zeta. split; [vm_compute; reflexivity|].
  split; [vm_compute; reflexivity|].
  split; [|vm_compute; reflexivity].
  intros H. destruct (H 0%nat) as [[k [E [_ Hk]]] _]; [lia|].
  vm_compute in E. injection E as <-. vm_compute in Hk. apply Hk. reflexivity.
Qed.

End Buffer.

(** ** Sums and differences of binary32 values *)

Section Arithmetic.

Lemma iter_pos_keeps {A : Type} (P : A -> Prop) (f : A -> A) :
  (forall a, P a -> P (f a)) -> forall n a, P a -> P (iter_pos f n a).
Proof.
  intros Hf. induction n as [n IH|n IH|]; intros a Ha; cbn [iter_pos]; auto.
Qed.

Lemma shr_1_nonneg mrs : 0 <= shr_m mrs -> 0 <= shr_m (shr_1 mrs).
Proof.
  destruct mrs as [m r s0]. cbn [shr_m]. intros H.
  destruct m as [|[p|p|]|p]; cbn; lia.
Qed.

Lemma shr_fexp_nonneg p em m e l :
  0 <= m -> 0 <= shr_m (fst (shr_fexp p em m e l)).
Proof.
  intros H. unfold shr_fexp, shr.
  assert (H0 : 0 <= shr_m (shr_record_of_loc m l)).
  { destruct l as [|[]]; exact H. }
  destruct (fexp p em (Zdigits2 m + e) - e) as [|n|n]; cbn [fst]; try exact H0.
  apply (iter_pos_keeps (fun mrs => 0 <= shr_m mrs)); [apply shr_1_nonneg | exact H0].
Qed.

Lemma round_nearest_even_nonneg m l : 0 <= m -> 0 <= round_nearest_even m l.
Proof.
  intros H. unfold round_nearest_even.
  destruct l as [|[]]; try exact H; [destruct (Z.even m)|]; lia.
Qed.

Lemma binary_round_aux_not_nan p em s m e l :
  0 <= m -> is_nan (binary_round_aux p em s m e l) = false.
Proof.
  intros H. unfold binary_round_aux.
  pose proof (shr_fexp_nonneg p em m e l H) as H1.
  destruct (shr_fexp p em m e l) as [mrs' e']. cbn [fst] in H1.
  pose proof (shr_fexp_nonneg p em _ e' loc_Exact
                (round_nearest_even_nonneg _ (loc_of_shr_record mrs') H1)) as H2.
  destruct (shr_fexp p em (round_nearest_even (shr_m mrs') (loc_of_shr_record mrs')) e' loc_Exact)
    as [mrs'' e''].
  cbn [fst] in H2.
  destruct (shr_m mrs'') as [|q|q]; [reflexivity | | lia].
  destruct (e'' <=? em - p); reflexivity.
Qed.

Lemma binary_normalize_not_nan p em m e sz :
  is_nan (binary_normalize p em m e sz) = false.
Proof.
  unfold binary_normalize, binary_round.
  destruct m as [|q|q]; [reflexivity| |];
    destruct (shl_align q e _) as [mz ez];
    apply binary_round_aux_not_nan; lia.
Qed.

Lemma add_not_nan a b :
  is_finite a = true -> is_nan b = false -> is_nan (add a b) = false.
Proof.
  unfold add, SFadd.
  destruct a as [[]|[]| |sa ma ea], b as [[]|[]| |sb mb eb];
    try discriminate; try reflexivity; intros _ _; apply binary_normalize_not_nan.
Qed.

Lemma sub_not_nan a b :
  is_finite a = true -> is_nan b = false -> is_nan (sub a b) = false.
Proof.
  unfold sub, SFsub.
  destruct a as [[]|[]| |sa ma ea], b as [[]|[]| |sb mb eb];
    try discriminate; try reflexivity; intros _ _; apply binary_normalize_not_nan.
Qed.

Lemma between_finite v lo hi :
  is_finite lo = true -> is_finite hi = true ->
  between v lo hi = true -> is_finite v = true.
Proof.
  unfold between, geb, leb, SFleb, SFcompare.
  destruct v as [[]|[]| |sv mv ev]; try reflexivity;
    destruct lo as [[]|[]| |[] ml el]; try discriminate;
    destruct hi as [[]|[]| |[] mh eh]; try discriminate; intros _ _ H; discriminate H.
Qed.

End Arithmetic.

(** ** The camera between key presses *)

Section Navigation.

Lemma ltb_nan_l a : ltb S754_nan a = false.
Proof. reflexivity. Qed.

Lemma ltb_nan_r a : ltb a S754_nan = false.
Proof. destruct a as [[]|[]| |[] m e]; reflexivity. Qed.

Lemma is_nan_eq v : is_nan v = true -> v = S754_nan.
Proof. destruct v; try discriminate; reflexivity. Qed.

(** X1: for [min <= max], [clampFloat] hands a NaN back, brings any other
    value into [min, max], and leaves a value as it is exactly when it is a
    NaN or already between the bounds. *)
Theorem clampFloat_characterised value min max :
  leb min max = true ->
  (is_nan value = true -> clampFloat value min max = value) /\
  (is_nan value = false -> between (clampFloat value min max) min max = true) /\
  (clampFloat value min max = value <->
   is_nan value = true \/ between value min max = true).
Proof.
  intros Hle.
  assert (Hnan : is_nan value = true -> clampFloat value min max = value).
  { intros H. apply is_nan_eq in H. subst value.
    apply clampFloat_fix; [apply ltb_nan_l | apply ltb_nan_r]. }
  split; [exact Hnan|].
  split; [intros H; apply clampFloat_between; assumption|].
  split.
  - intros E. destruct (is_nan value) eqn:N; [left; reflexivity|].
    right. rewrite <- E. apply clampFloat_between; assumption.
  - intros [N|B]; [apply Hnan, N | apply between_fix, B].
Qed.

Lemma clampFloat_characterised_witness :
  leb (of_int (-10)) (of_int 10) = true /\
  (is_nan (of_int 25) = true -> clampFloat (of_int 25) (of_int (-10)) (of_int 10) = of_int 25) /\
  (is_nan (of_int 25) = false ->
   between (clampFloat (of_int 25) (of_int (-10)) (of_int 10)) (of_int (-10)) (of_int 10) = true) /\
  (clampFloat (of_int 25) (of_int (-10)) (of_int 10) = of_int 25 <->
   is_nan (of_int 25) = true \/ between (of_int 25) (of_int (-10)) (of_int 10) = true).
Proof.
  split; [reflexivity|].
  apply (clampFloat_characterised (of_int 25) (of_int (-10)) (of_int 10)). reflexivity.
Defined.

Lemma correctForBoundaries_y p : y (correctForBoundaries p) = y p.
Proof.
  destruct p as [x0 y0 z0]. unfold correctForBoundaries. cbv [x y z set_x set_z].
  repeat match goal with
  | |- context [if ?c then _ else _] => destruct c
  end; reflexivity.
Qed.

Lemma correctForBoundaries_z p :
  z (correctForBoundaries p) = clampFloat (z p) (of_int (-10)) (of_int 10).
Proof.
  destruct p as [x0 y0 z0]. unfold correctForBoundaries. cbv [x y z set_x set_z].
  set (z1 := clampFloat z0 (of_int (-10)) (of_int 10)).
  destruct (ltb_double y0 _); [|reflexivity].
  destruct (between z1 (of_int (-10)) (lit (-464) (-2))) eqn:Ha.
  { destruct (between _ (lit (-545) (-2)) (lit 45 (-1))); cbv [z]; [|reflexivity].
    apply between_fix, Ha. }
  destruct (between z1 (lit 476 (-2)) (of_int 10)) eqn:Hb.
  { destruct (between _ (lit (-26) (-1)) (lit 45 (-1))); cbv [z]; [|reflexivity].
    apply between_fix, Hb. }
  destruct (between z1 (lit (-464) (-2)) (lit 476 (-2))); reflexivity.
Qed.

(** X2: the boundary clamp never changes [y], and all it ever does to [z]
    is the base clamp into [-10, 10]: the two inner clamps of [z] beside the
    hole act on a [z] that is already in their range. *)
Theorem correctForBoundaries_height_and_depth p :
  y (correctForBoundaries p) = y p /\
  z (correctForBoundaries p) = clampFloat (z p) (of_int (-10)) (of_int 10).
Proof. split; [apply correctForBoundaries_y | apply correctForBoundaries_z]. Qed.

Lemma correctForBoundaries_x_cases p :
  exists lo, leb (lit (-115) (-1)) lo = true /\ leb lo (lit 115 (-1)) = true /\
    x (correctForBoundaries p) =
      clampFloat (clampFloat (x p) (lit (-115) (-1)) (lit 115 (-1))) lo (lit 115 (-1)).
Proof.
  destruct p as [x0 y0 z0]. unfold correctForBoundaries. cbv [x y z set_x set_z].
  set (x1 := clampFloat x0 (lit (-115) (-1)) (lit 115 (-1))).
  assert (Base : x1 = clampFloat x1 (lit (-115) (-1)) (lit 115 (-1))).
  { symmetry. apply clampFloat_fix; apply clampFloat_not_outside; reflexivity. }
  repeat match goal with
  | |- context [if ?c then _ else _] => destruct c
  end; cbv [x];
    first [ exists (lit (-545) (-2)); split; [|split]; reflexivity
          | exists (lit (-26) (-1)); split; [|split]; reflexivity
          | exists (lit 45 (-1)); split; [|split]; reflexivity
          | exists (lit (-115) (-1)); split; [|split]; [reflexivity | reflexivity | exact Base] ].
Qed.

Lemma correctForBoundaries_x_not_outside p :
  ltb (x (correctForBoundaries p)) (lit (-115) (-1)) = false /\
  gtb (x (correctForBoundaries p)) (lit 115 (-1)) = false.
Proof.
  destruct (correctForBoundaries_x_cases p) as [lo [H1 [H2 ->]]].
  destruct (clampFloat_not_outside (clampFloat (x p) (lit (-115) (-1)) (lit 115 (-1)))
              lo (lit 115 (-1)) H2) as [A B].
  split; [exact (not_below_widen _ _ _ H1 A) | exact B].
Qed.

Lemma correctForBoundaries_x_nan p :
  is_nan (x (correctForBoundaries p)) = is_nan (x p).
Proof.
  destruct (correctForBoundaries_x_cases p) as [lo [H1 [H2 ->]]].
  rewrite (clampFloat_nan _ lo (lit 115 (-1)));
    [| apply (leb_not_nan _ _ H2) | reflexivity].
  apply clampFloat_nan; reflexivity.
Qed.

Lemma correctForBoundaries_z_not_outside p :
  ltb (z (correctForBoundaries p)) (of_int (-10)) = false /\
  gtb (z (correctForBoundaries p)) (of_int 10) = false.
Proof. rewrite correctForBoundaries_z. apply clampFloat_not_outside. reflexivity. Qed.

Lemma correctForBoundaries_inside p :
  is_nan (x p) = false -> is_nan (z p) = false ->
  between (x (correctForBoundaries p)) (lit (-115) (-1)) (lit 115 (-1)) = true /\
  between (z (correctForBoundaries p)) (of_int (-10)) (of_int 10) = true.
Proof.
  intros Nx Nz. split.
  - destruct (correctForBoundaries_x_not_outside p) as [A B].
    apply not_outside_between; try reflexivity; try assumption.
    rewrite correctForBoundaries_x_nan. exact Nx.
  - rewrite correctForBoundaries_z. apply clampFloat_between; [exact Nz | reflexivity].
Qed.

Lemma strip_in_footprint v lo hi :
  leb (of_int (-10)) lo = true -> leb hi (of_int 10) = true ->
  between v lo hi = true -> clampFloat v (of_int (-10)) (of_int 10) = v.
Proof.
  intros H1 H2 H. apply between_fix. apply (between_widen v lo hi); assumption.
Qed.

(** X3: on the mezzanine ([y < -7.53]) and for an [x] that is not NaN, a
    position on the strip in front of the stairs ([z] in [-10, -4.64]) comes
    back with [x] in [-5.45, 11.5], and one on the opposite strip ([z] in
    [4.76, 10]) with [x] in [-2.6, 11.5]. *)
Theorem correctForBoundaries_strips p :
  ltb_double (y p) (double_lit (-753) (-2)) = true ->
  is_nan (x p) = false ->
  (between (z p) (of_int (-10)) (lit (-464) (-2)) = true ->
   between (x (correctForBoundaries p)) (lit (-545) (-2)) (lit 115 (-1)) = true) /\
  (between (z p) (lit 476 (-2)) (of_int 10) = true ->
   between (x (correctForBoundaries p)) (lit (-26) (-1)) (lit 115 (-1)) = true).
Proof.
  destruct p as [x0 y0 z0]. cbv [x y z]. intros Hy Nx.
  assert (Nx1 : is_nan (clampFloat x0 (lit (-115) (-1)) (lit 115 (-1))) = false).
  { rewrite clampFloat_nan; auto. }
  split; intros Hz; unfold correctForBoundaries; cbv [x y z set_x set_z]; rewrite Hy.
  - rewrite (strip_in_footprint z0 (of_int (-10)) (lit (-464) (-2)) eq_refl eq_refl Hz), Hz.
    destruct (between _ (lit (-545) (-2)) (lit 45 (-1))); cbv [x];
      apply clampFloat_between; auto.
  - rewrite (strip_in_footprint z0 (lit 476 (-2)) (of_int 10) eq_refl eq_refl Hz), Hz.
    rewrite (between_disjoint z0 (lit 476 (-2)) (of_int 10)
               (of_int (-10)) (lit (-464) (-2)) eq_refl Hz).
    destruct (between _ (lit (-26) (-1)) (lit 45 (-1))); cbv [x];
      apply clampFloat_between; auto.
Qed.

Lemma correctForBoundaries_strips_witness :
  let p := mkPoint3 (of_int (-11)) (of_int (-8)) (of_int (-6)) in
  ltb_double (y p) (double_lit (-753) (-2)) = true /\
  is_nan (x p) = false /\
  (between (z p) (of_int (-10)) (lit (-464) (-2)) = true ->
   between (x (correctForBoundaries p)) (lit (-545) (-2)) (lit 115 (-1)) = true) /\
  (between (z p) (lit 476 (-2)) (of_int 10) = true ->
   between (x (correctForBoundaries p)) (lit (-26) (-1)) (lit 115 (-1)) = true).
Proof.
  intros p. split; [reflexivity|]. split; [reflexivity|].
  apply (correctForBoundaries_strips p); reflexivity.
Defined.

Lemma correctForBoundaries_off_hole p :
  ltb_double (y p) (double_lit (-753) (-2)) = true ->
  over_hole (correctForBoundaries p) = false.
Proof.
  destruct p as [x0 y0 z0]. cbv [y]. intros Hy.
  unfold over_hole, correctForBoundaries. cbv [x y z set_x set_z]. rewrite Hy.
  set (x1 := clampFloat x0 (lit (-115) (-1)) (lit 115 (-1))).
  set (z1 := clampFloat z0 (of_int (-10)) (of_int 10)).
  destruct (between z1 (of_int (-10)) (lit (-464) (-2))) eqn:Ha.
  { rewrite (between_fix _ _ _ Ha).
    apply andb_prop in Ha as [_ Ha]. apply leb_not_gt in Ha.
    destruct (between _ (lit (-545) (-2)) (lit 45 (-1))); cbv [x z];
      rewrite Ha; apply andb_false_iff; left; apply andb_false_r. }
  destruct (between z1 (lit 476 (-2)) (of_int 10)) eqn:Hb.
  { rewrite (between_fix _ _ _ Hb).
    apply andb_prop in Hb as [Hb _]. apply leb_not_gt in Hb.
    destruct (between _ (lit (-26) (-1)) (lit 45 (-1))); cbv [x z];
      rewrite Hb; apply andb_false_r. }
  destruct (between z1 (lit (-464) (-2)) (lit 476 (-2))) eqn:Hc; cbv [x z].
  { destruct (clampFloat_not_outside x1 (lit 45 (-1)) (lit 115 (-1)) eq_refl) as [E _].
    rewrite E. reflexivity. }
  destruct (ltb (lit (-464) (-2)) z1) eqn:E1; [|apply andb_false_iff; left; apply andb_false_r].
  destruct (ltb z1 (lit 476 (-2))) eqn:E2; [|apply andb_false_r].
  unfold between, geb in Hc. rewrite (ltb_leb _ _ E1), (ltb_leb _ _ E2) in Hc. discriminate.
Qed.

(** X4: on the mezzanine ([y < -7.53]) the boundary clamp never leaves a
    position over the hole of the floor ([x < 4.5] with [-4.64 < z < 4.76]),
    whatever the position it is given. *)
Theorem correctForBoundaries_never_over_hole p :
  ltb_double (y p) (double_lit (-753) (-2)) = true ->
  over_hole (correctForBoundaries p) = false.
Proof. apply correctForBoundaries_off_hole. Qed.

Lemma correctForBoundaries_never_over_hole_witness :
  let p := mkPoint3 (of_int 0) (of_int (-8)) (of_int 0) in
  ltb_double (y p) (double_lit (-753) (-2)) = true /\
  over_hole p = true /\ over_hole (correctForBoundaries p) = false.
Proof.
  intros p. split; [reflexivity|]. split; [reflexivity|].
  apply (correctForBoundaries_never_over_hole p). reflexivity.
Defined.

End Navigation.

(** ** The camera across key presses *)

Section Camera.

Ltac settle :=
  unfold correctForBoundaries; cbv [x y z set_x set_z];
  repeat match goal with
  | |- context [clampFloat ?v ?lo ?hi] =>
      rewrite (clampFloat_fix v lo hi) by
        (first [ assumption
               | eapply not_below_widen; [| eassumption]; reflexivity
               | eapply not_above_widen; [| eassumption]; reflexivity ])
  end.

Lemma same_point (c : bool) (p : Point3) : (if c then p else p) = p.
Proof. destruct c; reflexivity. Qed.

Lemma correctForBoundaries_settles p :
  correctForBoundaries (correctForBoundaries p) = correctForBoundaries p.
Proof.
  destruct p as [x0 y0 z0].
  unfold correctForBoundaries at 2 3. cbv [x y z set_x set_z].
  destruct (clampFloat_not_outside x0 (lit (-115) (-1)) (lit 115 (-1)) eq_refl) as [Hx Hx'].
  destruct (clampFloat_not_outside z0 (of_int (-10)) (of_int 10) eq_refl) as [Hz Hz'].
  set (x1 := clampFloat x0 _ _) in *. set (z1 := clampFloat z0 _ _) in *. clearbody x1 z1.
  destruct (ltb_double y0 _) eqn:Hy; [|settle; rewrite Hy; reflexivity].
  destruct (between z1 (of_int (-10)) (lit (-464) (-2))) eqn:Ha.
  { destruct (clampFloat_not_outside x1 (lit (-545) (-2)) (lit 115 (-1)) eq_refl) as [Hl Hh].
    set (x2 := clampFloat x1 _ _) in *. clearbody x2.
    rewrite (between_fix _ _ _ Ha), same_point.
    settle. rewrite Hy, Ha, (between_fix _ _ _ Ha). apply same_point. }
  destruct (between z1 (lit 476 (-2)) (of_int 10)) eqn:Hb.
  { destruct (clampFloat_not_outside x1 (lit (-26) (-1)) (lit 115 (-1)) eq_refl) as [Hl Hh].
    set (x2 := clampFloat x1 _ _) in *. clearbody x2.
    rewrite (between_fix _ _ _ Hb), same_point.
    settle. rewrite Hy, Ha, Hb, (between_fix _ _ _ Hb). apply same_point. }
  destruct (between z1 (lit (-464) (-2)) (lit 476 (-2))) eqn:Hc.
  { destruct (clampFloat_not_outside x1 (lit 45 (-1)) (lit 115 (-1)) eq_refl) as [Hl Hh].
    set (x2 := clampFloat x1 _ _) in *. clearbody x2.
    settle. rewrite Hy, Ha, Hb, Hc. reflexivity. }
  settle. rewrite Hy, Ha, Hb, Hc. reflexivity.
Qed.

(** The two calls that end [handleKeyboard] give one of the two landings
    or the clamped position, and that one passes both of them unchanged. *)
Lemma pass_cases c :
  let r := teleportIfNecessary (correctForBoundaries c) in
  (r = upperFloor \/ r = lowerFloor \/
   (r = correctForBoundaries c /\
    lowerStairStep (correctForBoundaries c) = false /\
    upperStairStep (correctForBoundaries c) = false)).
Proof.
  cbv zeta. rewrite teleportIfNecessary_cases.
  destruct (lowerStairStep _) eqn:E1; [left; reflexivity|].
  destruct (upperStairStep _) eqn:E2; [right; left; reflexivity|].
  right; right. repeat split.
Qed.

Lemma pass_fixed c :
  let r := teleportIfNecessary (correctForBoundaries c) in
  correctForBoundaries r = r /\ teleportIfNecessary r = r.
Proof.
  cbv zeta. destruct (pass_cases c) as [E|[E|[E [E1 E2]]]]; rewrite E.
  - split; vm_compute; reflexivity.
  - split; vm_compute; reflexivity.
  - rewrite correctForBoundaries_settles. split; [reflexivity|].
    rewrite teleportIfNecessary_cases, E1, E2. reflexivity.
Qed.

Lemma handleKeyboard_some key forward p r :
  handleKeyboard key forward p = Some r ->
  exists x' z',
    r = teleportIfNecessary (correctForBoundaries (mkPoint3 x' (y p) z')) /\
    (is_nan (x forward) = false -> is_nan (z forward) = false ->
     is_finite (x p) = true -> is_finite (z p) = true ->
     is_nan x' = false /\ is_nan z' = false).
Proof.
  unfold handleKeyboard. cbv [x y z set_x set_z].
  destruct p as [px py pz], forward as [fx fy fz]. cbv [x y z].
  assert (Fin : forall v, is_finite v = true -> is_nan v = false).
  { intros v. destruct v; try discriminate; reflexivity. }
  destruct (Ascii.eqb key "w");
    [|destruct (Ascii.eqb key "s");
      [|destruct (Ascii.eqb key "a");
        [|destruct (Ascii.eqb key "d");
          [|destruct (Ascii.eqb key "q"); [discriminate|]]]]];
    intros H; injection H as <-; do 2 eexists; (split; [reflexivity|]);
    intros Nx Nz Hx Hz; split;
    first [ apply add_not_nan; assumption
          | apply sub_not_nan; assumption
          | apply Fin; assumption ].
Qed.

(** X5: after any key press, whatever the position and the forward vector
    (NaN and infinities included), [x] is neither below -11.5 nor above
    11.5 and [z] is neither below -10 nor above 10. *)
Theorem handleKeyboard_never_outside key forward p r :
  handleKeyboard key forward p = Some r ->
  ltb (x r) (lit (-115) (-1)) = false /\ gtb (x r) (lit 115 (-1)) = false /\
  ltb (z r) (of_int (-10)) = false /\ gtb (z r) (of_int 10) = false.
Proof.
  intros H. apply handleKeyboard_some in H as [x' [z' [-> _]]].
  destruct (pass_cases (mkPoint3 x' (y p) z')) as [E|[E|[E _]]]; rewrite E.
  - vm_compute. repeat split.
  - vm_compute. repeat split.
  - destruct (correctForBoundaries_x_not_outside (mkPoint3 x' (y p) z')) as [A B].
    destruct (correctForBoundaries_z_not_outside (mkPoint3 x' (y p) z')) as [C D].
    repeat split; assumption.
Qed.

Lemma handleKeyboard_never_outside_witness :
  let forward := mkPoint3 S754_nan (of_int 0) (S754_infinity false) in
  let r := mkPoint3 S754_nan (of_int (-2)) (of_int 10) in
  handleKeyboard "w" forward init_cameraPos = Some r /\
  ltb (x r) (lit (-115) (-1)) = false /\ gtb (x r) (lit 115 (-1)) = false /\
  ltb (z r) (of_int (-10)) = false /\ gtb (z r) (of_int 10) = false.
Proof.
  intros forward r. split; [reflexivity|].
  apply (handleKeyboard_never_outside "w" forward init_cameraPos r). reflexivity.
Defined.

Lemma camera_reachable_fixed ok p :
  camera_reachable ok p ->
  correctForBoundaries p = p /\ teleportIfNecessary p = p /\
  (y p = of_int (-2) \/ y p = lit (-754) (-2)).
Proof.
  induction 1 as [|key forward p r _ [_ [_ IH]] _ H].
  - repeat split; left; reflexivity.
  - apply handleKeyboard_some in H as [x' [z' [-> _]]].
    destruct (pass_fixed (mkPoint3 x' (y p) z')) as [F1 F2].
    split; [exact F1|]. split; [exact F2|].
    destruct (pass_cases (mkPoint3 x' (y p) z')) as [E|[E|[E _]]]; rewrite E.
    + right. reflexivity.
    + left. reflexivity.
    + rewrite correctForBoundaries_y. exact IH.
Qed.

Lemma step_reachable ok :
  ok (mkPoint3 (of_int 0) (of_int 0) (of_int 1)) ->
  camera_reachable ok (mkPoint3 (of_int 0) (of_int (-2)) (of_int 1)).
Proof.
  intros H.
  apply (camera_key ok "w" (mkPoint3 (of_int 0) (of_int 0) (of_int 1)) init_cameraPos).
  - apply camera_init.
  - exact H.
  - reflexivity.
Defined.

(** X6: whatever keys are pressed and whatever the forward vectors are, the
    camera's [y] is one of the two floor heights, -2 and -7.54, and on the
    upper one the camera is never over the hole of the floor. *)
Theorem camera_height ok p :
  camera_reachable ok p ->
  (y p = of_int (-2) \/ y p = lit (-754) (-2)) /\
  (y p = lit (-754) (-2) -> over_hole p = false).
Proof.
  intros H. destruct (camera_reachable_fixed ok p H) as [F [_ Hy]].
  split; [exact Hy|]. intros E.
  rewrite <- F. apply correctForBoundaries_off_hole. rewrite E. reflexivity.
Qed.

Lemma camera_height_witness :
  let p := mkPoint3 (of_int 0) (of_int (-2)) (of_int 1) in
  camera_reachable any_forward p /\
  (y p = of_int (-2) \/ y p = lit (-754) (-2)) /\
  (y p = lit (-754) (-2) -> over_hole p = false).
Proof.
  intros p. split; [apply step_reachable; exact I|].
  apply (camera_height any_forward p). apply step_reachable. exact I.
Defined.

(** X7: a key other than [w], [s], [a], [d] and [q] leaves a camera where
    the keyboard brought it: the clamp and the teleport check that follow
    the [default] label find nothing to change. *)
Theorem handleKeyboard_other_key ok key forward p :
  camera_reachable ok p -> other_key key = true ->
  handleKeyboard key forward p = Some p.
Proof.
  intros H K. destruct (camera_reachable_fixed ok p H) as [F1 [F2 _]].
  unfold other_key in K. apply negb_true_iff in K.
  apply orb_false_elim in K as [K Kq].
  apply orb_false_elim in K as [K Kd].
  apply orb_false_elim in K as [K Ka].
  apply orb_false_elim in K as [Kw Ks].
  unfold handleKeyboard. rewrite Kw, Ks, Ka, Kd, Kq, F1, F2. reflexivity.
Qed.

Lemma handleKeyboard_other_key_witness :
  let p := mkPoint3 (of_int 0) (of_int (-2)) (of_int 1) in
  camera_reachable any_forward p /\ other_key "x" = true /\
  handleKeyboard "x" (mkPoint3 (of_int 1) (of_int 0) (of_int 0)) p = Some p.
Proof.
  intros p. split; [apply step_reachable; exact I|]. split; [reflexivity|].
  apply (handleKeyboard_other_key any_forward "x" _ p);
    [apply step_reachable; exact I | reflexivity].
Defined.

Lemma camera_reachable_inside p :
  camera_reachable numeric_forward p ->
  between (x p) (lit (-115) (-1)) (lit 115 (-1)) = true /\
  between (z p) (of_int (-10)) (of_int 10) = true.
Proof.
  induction 1 as [|key forward p r _ [IHx IHz] [Nx Nz] H].
  - split; reflexivity.
  - apply handleKeyboard_some in H as [x' [z' [-> N]]].
    destruct N as [Nx' Nz']; try assumption.
    { apply (between_finite (x p) (lit (-115) (-1)) (lit 115 (-1)) eq_refl eq_refl IHx). }
    { apply (between_finite (z p) (of_int (-10)) (of_int 10) eq_refl eq_refl IHz). }
    destruct (pass_cases (mkPoint3 x' (y p) z')) as [E|[E|[E _]]]; rewrite E.
    + split; reflexivity.
    + split; reflexivity.
    + apply correctForBoundaries_inside; assumption.
Qed.

(** X8: as long as the [x] and [z] of every forward vector are not NaN
    (infinities allowed), the camera stays inside the footprint of the
    building: [x] in [-11.5, 11.5] and [z] in [-10, 10], neither of them
    NaN. *)
Theorem camera_stays_inside p :
  camera_reachable numeric_forward p ->
  between (x p) (lit (-115) (-1)) (lit 115 (-1)) = true /\
  between (z p) (of_int (-10)) (of_int 10) = true /\
  is_nan (x p) = false /\ is_nan (z p) = false.
Proof.
  intros H. destruct (camera_reachable_inside p H) as [Hx Hz].
  split; [exact Hx|]. split; [exact Hz|].
  pose proof (between_finite (x p) (lit (-115) (-1)) (lit 115 (-1)) eq_refl eq_refl Hx) as Fx.
  pose proof (between_finite (z p) (of_int (-10)) (of_int 10) eq_refl eq_refl Hz) as Fz.
  split; [destruct (x p) | destruct (z p)]; try discriminate; reflexivity.
Qed.

Lemma camera_stays_inside_witness :
  let p := mkPoint3 (of_int 0) (of_int (-2)) (of_int 1) in
  camera_reachable numeric_forward p /\
  between (x p) (lit (-115) (-1)) (lit 115 (-1)) = true /\
  between (z p) (of_int (-10)) (of_int 10) = true /\
  is_nan (x p) = false /\ is_nan (z p) = false.
Proof.
  intros p.
  assert (R : camera_reachable numeric_forward p).
  { apply step_reachable. split; reflexivity. }
  split; [exact R|]. apply (camera_stays_inside p). exact R.
Defined.

End Camera.

(** ** Runs of pointer samples *)

Section Pointer.

Lemma degree_left_right n : 0 <= n <= 359 -> ((n + 1) mod 360 - 1) mod 360 = n.
Proof. intros H. Z.to_euclidean_division_equations. lia. Qed.

Lemma degree_right_left n : 0 <= n <= 359 -> ((n - 1) mod 360 + 1) mod 360 = n.
Proof. intros H. Z.to_euclidean_division_equations. lia. Qed.

Lemma degree_in_range n : 0 <= n mod 360 <= 359.
Proof. pose proof (Z.mod_pos_bound n 360). lia. Qed.

(** X9: on a rotation reachable from 0, a move to the left followed by a
    sample that is not one, or the other way round, gives the rotation
    back. *)
Theorem handleMouseMotion_there_and_back r :
  yaw_reachable r ->
  forall x0 x1 x2,
    (x1 < x0 -> x1 <= x2 ->
     fst (handleMouseMotion x2 x1 (fst (handleMouseMotion x1 x0 r))) = r) /\
    (x0 <= x1 -> x2 < x1 ->
     fst (handleMouseMotion x2 x1 (fst (handleMouseMotion x1 x0 r))) = r).
Proof.
  intros H x0 x1 x2. destruct (yaw_reachable_degree r H) as [n [Hn ->]].
  destruct (yaw_degree n Hn) as [Hl Hr]. split; intros A B.
  - rewrite (handleMouseMotion_left x1 x0 _ A), Hl.
    rewrite (handleMouseMotion_right x2 x1 _ B).
    destruct (yaw_degree ((n + 1) mod 360) (degree_in_range _)) as [_ E].
    rewrite E, degree_left_right; [reflexivity | exact Hn].
  - rewrite (handleMouseMotion_right x1 x0 _ A), Hr.
    rewrite (handleMouseMotion_left x2 x1 _ B).
    destruct (yaw_degree ((n - 1) mod 360) (degree_in_range _)) as [E _].
    rewrite E, degree_right_left; [reflexivity | exact Hn].
Qed.

Lemma handleMouseMotion_there_and_back_witness :
  yaw_reachable (of_int 0) /\
  forall x0 x1 x2,
    (x1 < x0 -> x1 <= x2 ->
     fst (handleMouseMotion x2 x1 (fst (handleMouseMotion x1 x0 (of_int 0)))) = of_int 0) /\
    (x0 <= x1 -> x2 < x1 ->
     fst (handleMouseMotion x2 x1 (fst (handleMouseMotion x1 x0 (of_int 0)))) = of_int 0).
Proof.
  split; [exact yaw_init|].
  apply (handleMouseMotion_there_and_back (of_int 0)). exact yaw_init.
Defined.

Lemma handleMouseMotion_snd mx prevX r : snd (handleMouseMotion mx prevX r) = mx.
Proof. reflexivity. Qed.

Lemma last_sample (mx : Z) samples prevX : last (mx :: samples) prevX = last samples mx.
Proof.
  revert mx prevX. induction samples as [|a l IH]; intros mx prevX; [reflexivity|].
  change (last (mx :: a :: l) prevX) with (last (a :: l) prevX).
  rewrite (IH a prevX), (IH a mx). reflexivity.
Qed.

(** X10: a run of pointer samples leaves the rotation at the start value
    plus the moves to the left minus the other samples, modulo 360, and
    the remembered [prevX] at the last sample. *)
Theorem mouse_samples_net samples prevX n :
  0 <= n <= 359 ->
  mouse_samples samples prevX (of_int n) =
    (of_int ((n + net_left samples prevX) mod 360), last samples prevX).
Proof.
  revert prevX n. induction samples as [|mx samples IH]; intros prevX n Hn.
  - cbn [mouse_samples net_left last]. rewrite Z.add_0_r, Z.mod_small by lia. reflexivity.
  - cbn [mouse_samples net_left].
    destruct (handleMouseMotion mx prevX (of_int n)) as [rotation prev] eqn:E.
    pose proof (f_equal fst E) as E1. pose proof (f_equal snd E) as E2.
    cbn [fst snd] in E1, E2. rewrite handleMouseMotion_snd in E2. subst prev.
    destruct (yaw_degree n Hn) as [Hl Hr].
    rewrite (last_sample mx samples prevX).
    destruct (mx <? prevX) eqn:C.
    + apply Z.ltb_lt in C. rewrite (handleMouseMotion_left _ _ _ C), Hl in E1. subst rotation.
      rewrite (IH mx _ (degree_in_range _)).
      rewrite Z.add_mod_idemp_l by lia. f_equal. f_equal. f_equal. lia.
    + apply Z.ltb_ge in C. rewrite (handleMouseMotion_right _ _ _ C), Hr in E1. subst rotation.
      rewrite (IH mx _ (degree_in_range _)).
      rewrite Z.add_mod_idemp_l by lia. f_equal. f_equal. f_equal. lia.
Qed.

Lemma mouse_samples_net_witness :
  0 <= 0 <= 359 /\
  mouse_samples [5; 3; 3; 2; 1] 0 (of_int 0) =
    (of_int ((0 + net_left [5; 3; 3; 2; 1] 0) mod 360), last [5; 3; 3; 2; 1] 0).
Proof.
  split; [lia|]. apply (mouse_samples_net [5; 3; 3; 2; 1] 0 0). lia.
Defined.

End Pointer.

(** ** Files, line by line *)

Section Lines.

Lemma readLine_by_kind this line :
  readLine this line =
  match line_kind line with
  | k_comment => (this, [])
  | k_name => (mkObj (substr1 line) (vertices this) (normals this) (faces this), [])
  | k_normal =>
      (mkObj (name this) (vertices this) (normals this ++ [scan_normal line]) (faces this),
       [out_point (scan_normal line)])
  | k_vertex =>
      (mkObj (name this) (vertices this ++ [scan_vertex line]) (normals this) (faces this),
       [out_point (scan_vertex line)])
  | k_face =>
      (mkObj (name this) (vertices this) (normals this) (faces this ++ [scan_face line]),
       [out_face (vertexIds (scan_face line))])
  | k_invalid => (this, [out_invalid line])
  end.
Proof.
  unfold readLine, line_kind.
  destruct (Ascii.eqb (char_at line 0) "#"); [reflexivity|].
  destruct (Ascii.eqb (char_at line 0) "o"); [reflexivity|].
  destruct (Ascii.eqb (char_at line 0) "v");
    [destruct (Ascii.eqb (char_at line 1) "n"); reflexivity|].
  destruct (Ascii.eqb (char_at line 0) "f"); reflexivity.
Qed.

Lemma same_object (o : Obj) : mkObj (name o) (vertices o) (normals o) (faces o) = o.
Proof. destruct o. reflexivity. Qed.

(** X11: a line that starts with [#] is ignored without a word: the
    object read and everything sent to [cout] are what they are without
    that line. *)
Theorem readFile_comment this before line after :
  Ascii.eqb (char_at line 0) "#" = true ->
  readFile this (before ++ line :: after) = readFile this (before ++ after).
Proof.
  intros H.
  assert (E : forall o, readLine o line = (o, [])).
  { intros o. unfold readLine. rewrite H. reflexivity. }
  unfold readFile. rewrite !readLines_app. cbn [readLines]. rewrite E.
  destruct (readLines (fst (readLines this before)) after) as [o out].
  reflexivity.
Qed.

Lemma readFile_comment_witness :
  Ascii.eqb (char_at "# Blender v2.91" 0) "#" = true /\
  readFile Obj_default (["o Test"] ++ "# Blender v2.91" :: ["v 1 2 3"]) =
  readFile Obj_default (["o Test"] ++ ["v 1 2 3"]).
Proof.
  split; [reflexivity|].
  apply (readFile_comment Obj_default ["o Test"] "# Blender v2.91" ["v 1 2 3"]).
  reflexivity.
Defined.

Lemma filter_kind k line file :
  filter (of_kind k) (line :: file) =
  if Kind_eqb (line_kind line) k then line :: filter (of_kind k) file
  else filter (of_kind k) file.
Proof. reflexivity. Qed.

Lemma last_name_cons line file n :
  last_name (line :: file) n =
  last_name file (if Kind_eqb (line_kind line) k_name then substr1 line else n).
Proof. reflexivity. Qed.

Lemma readLines_by_kind this file :
  name (fst (readLines this file)) = last_name file (name this) /\
  vertices (fst (readLines this file)) =
    vertices this ++ map scan_vertex (filter (of_kind k_vertex) file) /\
  normals (fst (readLines this file)) =
    normals this ++ map scan_normal (filter (of_kind k_normal) file) /\
  faces (fst (readLines this file)) =
    faces this ++ map scan_face (filter (of_kind k_face) file).
Proof.
  revert this. induction file as [|line file IH]; intros this.
  - cbn. rewrite !app_nil_r. repeat split.
  - cbn [readLines]. rewrite readLine_by_kind.
    rewrite last_name_cons, !filter_kind.
    destruct (line_kind line);
      match goal with
      | |- context [readLines ?o file] =>
          destruct (IH o) as [Hn [Hv [Hm Hf]]];
          destruct (readLines o file) as [o' out'] eqn:E
      end;
      cbn [fst name vertices normals faces Kind_eqb map] in *;
      rewrite Hn, Hv, Hm, Hf; rewrite <- ?app_assoc; repeat split.
Qed.

(** X12: what [readFile] loads, kind by kind: the vertices are the ones
    already there followed by one per [v] line, in the order of the file,
    and so are the normals with the [vn] lines and the faces with the [f]
    lines; the name is the rest of the last [o] line, or the old name when
    there is none.  Nothing already there is removed or changed. *)
Theorem readFile_by_kind this file :
  name (fst (readFile this file)) = last_name file (name this) /\
  vertices (fst (readFile this file)) =
    vertices this ++ map scan_vertex (filter (of_kind k_vertex) file) /\
  normals (fst (readFile this file)) =
    normals this ++ map scan_normal (filter (of_kind k_normal) file) /\
  faces (fst (readFile this file)) =
    faces this ++ map scan_face (filter (of_kind k_face) file).
Proof. rewrite fst_readFile. apply readLines_by_kind. Qed.

(** X13: two neighbouring lines that take different branches of the loop
    can change places without changing the object read; so a face may come
    before the vertices and normals that it names. *)
Theorem readFile_lines_commute this before l1 l2 after :
  line_kind l1 <> line_kind l2 ->
  fst (readFile this (before ++ l1 :: l2 :: after)) =
  fst (readFile this (before ++ l2 :: l1 :: after)).
Proof.
  intros H. rewrite !fst_readFile, !readLines_app. cbn [fst snd readLines].
  set (o := fst (readLines this before)).
  assert (E : fst (readLine (fst (readLine o l1)) l2) = fst (readLine (fst (readLine o l2)) l1)).
  { rewrite !readLine_by_kind.
    destruct (line_kind l1), (line_kind l2); try reflexivity; contradiction H; reflexivity. }
  destruct (readLine o l1) as [a outa]. destruct (readLine o l2) as [b outb].
  cbn [fst] in E.
  destruct (readLine a l2) as [a' outa']. destruct (readLine b l1) as [b' outb'].
  cbn [fst] in E. subst b'.
  destruct (readLines a' after). reflexivity.
Qed.

Lemma readFile_lines_commute_witness :
  line_kind "f 1//1 1//1 1//1 1//1" <> line_kind "v 1 2 3" /\
  fst (readFile Obj_default (["vn 0 1 0"] ++ "f 1//1 1//1 1//1 1//1" :: "v 1 2 3" :: [])) =
  fst (readFile Obj_default (["vn 0 1 0"] ++ "v 1 2 3" :: "f 1//1 1//1 1//1 1//1" :: [])).
Proof.
  assert (H : line_kind "f 1//1 1//1 1//1 1//1" <> line_kind "v 1 2 3").
  { vm_compute. discriminate. }
  split; [exact H|].
  apply (readFile_lines_commute Obj_default ["vn 0 1 0"]
           "f 1//1 1//1 1//1 1//1" "v 1 2 3" []).
  exact H.
Defined.

(** X14: [readFile] adds to the object it is called on: reading a second
    file into the object read from a first one gives the object read from
    the two files put end to end. *)
Theorem readFile_twice this file1 file2 :
  fst (readFile (fst (readFile this file1)) file2) = fst (readFile this (file1 ++ file2)).
Proof. rewrite !fst_readFile, readLines_app. reflexivity. Qed.

End Lines.

(** ** What [toBuffer] and [draw] send to OpenGL *)

Section Drawing.

Lemma for_each_length {A B : Type} (f : A -> option (list B)) (k : nat) (l : list A) :
  (forall a bs, f a = Some bs -> List.length bs = k) ->
  forall bs, for_each f l = Some bs -> List.length bs = (k * List.length l)%nat.
Proof.
  intros Hf. induction l as [|a l IH]; cbn [for_each]; intros bs H.
  - injection H as <-. cbn. lia.
  - destruct (f a) as [b|] eqn:Ea; [|discriminate].
    destruct (for_each f l) as [b'|]; [|discriminate].
    injection H as <-. rewrite length_app, (Hf a b Ea), (IH b' eq_refl). cbn [List.length]. lia.
Qed.

Lemma corner_length this face j bs : corner this face j = Some bs -> List.length bs = 2%nat.
Proof.
  unfold corner. destruct (at_minus_1 (vertices this) _); [|discriminate].
  destruct (at_minus_1 (normals this) _); [|discriminate].
  intros H. injection H as <-. reflexivity.
Qed.

(** X15: when [toBuffer] stays inside the vectors it makes one
    [glNormal3f] and one [glVertex3f] call for each of the four corners of
    each face, between one [glBegin] and one [glEnd]: 8 calls for a face
    and 2 more. *)
Theorem toBuffer_calls this calls :
  toBuffer this = Some calls ->
  List.length calls = (8 * List.length (faces this) + 2)%nat /\
  hd glEnd calls = glBegin_QUADS /\ last calls glBegin_QUADS = glEnd.
Proof.
  unfold toBuffer.
  destruct (for_each _ (faces this)) as [inner|] eqn:E; [|discriminate].
  intros H. injection H as <-.
  apply (for_each_length _ 8) in E.
  - split; [|split].
    + cbn [List.length]. rewrite length_app, E. cbn [List.length]. lia.
    + reflexivity.
    + change (glBegin_QUADS :: inner ++ [glEnd]) with ((glBegin_QUADS :: inner) ++ [glEnd]).
      apply last_last.
  - intros face bs Hc. apply (for_each_length _ 2) in Hc; [exact Hc|].
    intros j cs. apply corner_length.
Qed.

Lemma toBuffer_calls_witness :
  toBuffer (fst (readFile Obj_default sample_file)) =
    Some ([glBegin_QUADS]
          ++ List.concat (repeat [glNormal3f (of_int 0) (of_int 1) (of_int 0);
                                  glVertex3f (of_int 1) (of_int 2) (of_int 3)] 4)
          ++ [glEnd]) /\
  List.length ([glBegin_QUADS]
          ++ List.concat (repeat [glNormal3f (of_int 0) (of_int 1) (of_int 0);
                                  glVertex3f (of_int 1) (of_int 2) (of_int 3)] 4)
          ++ [glEnd]) =
    (8 * List.length (faces (fst (readFile Obj_default sample_file))) + 2)%nat.
Proof.
  split; [reflexivity|].
  apply (toBuffer_calls (fst (readFile Obj_default sample_file))). reflexivity.
Defined.

Lemma at_minus_1_app {A : Type} (v w : list A) (i : int) (a : A) :
  at_minus_1 v i = Some a -> at_minus_1 (v ++ w) i = Some a.
Proof.
  unfold at_minus_1. destruct i as [k|]; [|discriminate].
  destruct ((0 <=? k - 1) && (k - 1 <? Z.of_nat (List.length v))) eqn:E; [|discriminate].
  apply andb_prop in E as [E1 E2]. apply Z.leb_le in E1. apply Z.ltb_lt in E2.
  intros H. rewrite length_app.
  replace ((0 <=? k - 1) && (k - 1 <? Z.of_nat (List.length v + List.length w))) with true.
  - rewrite nth_error_app1; [exact H | lia].
  - symmetry. apply andb_true_intro. split; [apply Z.leb_le | apply Z.ltb_lt]; lia.
Qed.

Lemma for_each_same {A B : Type} (f g : A -> option (list B)) (l : list A) :
  (forall a bs, f a = Some bs -> g a = Some bs) ->
  forall bs, for_each f l = Some bs -> for_each g l = Some bs.
Proof.
  intros Hfg. induction l as [|a l IH]; cbn [for_each]; intros bs H; [exact H|].
  destruct (f a) as [b|] eqn:Ea; [|discriminate].
  destruct (for_each f l) as [b'|]; [|discriminate].
  rewrite (Hfg a b Ea), (IH b' eq_refl). exact H.
Qed.

Lemma corner_more_points this more_vertices more_normals face j cs :
  corner this face j = Some cs ->
  corner (mkObj (name this) (vertices this ++ more_vertices)
                (normals this ++ more_normals) (faces this)) face j = Some cs.
Proof.
  unfold corner. cbn [vertices normals].
  destruct (at_minus_1 (vertices this) _) as [vertex|] eqn:Ev; [|discriminate].
  destruct (at_minus_1 (normals this) _) as [normal|] eqn:En; [|discriminate].
  rewrite (at_minus_1_app _ more_vertices _ _ Ev), (at_minus_1_app _ more_normals _ _ En).
  intros H. exact H.
Qed.

(** X16: points added at the end of the vectors do not disturb a drawing
    that stayed inside them: with more vertices and normals after the old
    ones, [toBuffer] makes the same calls. *)
Theorem toBuffer_more_points this more_vertices more_normals calls :
  toBuffer this = Some calls ->
  toBuffer (mkObj (name this) (vertices this ++ more_vertices)
                  (normals this ++ more_normals) (faces this)) = Some calls.
Proof.
  unfold toBuffer. cbn [faces].
  destruct (for_each _ (faces this)) as [inner|] eqn:E; [|discriminate].
  intros H.
  apply (for_each_same _
           (fun face => for_each
              (corner (mkObj (name this) (vertices this ++ more_vertices)
                             (normals this ++ more_normals) (faces this)) face)
              [0; 1; 2; 3]%nat)) in E.
  - rewrite E. exact H.
  - intros face bs. apply for_each_same.
    intros j cs. apply corner_more_points.
Qed.

Lemma toBuffer_more_points_witness :
  let this := fst (readFile Obj_default sample_file) in
  let more := [mkPoint3 (of_int 4) (of_int 5) (of_int 6)] in
  toBuffer this =
    Some ([glBegin_QUADS]
          ++ List.concat (repeat [glNormal3f (of_int 0) (of_int 1) (of_int 0);
                                  glVertex3f (of_int 1) (of_int 2) (of_int 3)] 4)
          ++ [glEnd]) /\
  toBuffer (mkObj (name this) (vertices this ++ more) (normals this ++ more) (faces this)) =
    Some ([glBegin_QUADS]
          ++ List.concat (repeat [glNormal3f (of_int 0) (of_int 1) (of_int 0);
                                  glVertex3f (of_int 1) (of_int 2) (of_int 3)] 4)
          ++ [glEnd]).
Proof.
  intros this more. split; [reflexivity|].
  apply (toBuffer_more_points this more more). reflexivity.
Defined.

Lemma main_objects_find files :
  map_find "bottom" (main_objects files) = Some (Obj_of_file (files "mezzanine_bottom.obj")) /\
  map_find "stairs" (main_objects files) = Some (Obj_of_file (files "mezzanine_stairs.obj")) /\
  map_find "top" (main_objects files) = Some (Obj_of_file (files "mezzanine_top.obj")).
Proof. repeat split. Qed.

(** X17: each of the three lookups of [draw] finds the object that [main]
    read from the file of that part, whatever the files hold (a file that
    gives no line gives an empty object), and [draw] stays inside the
    vectors exactly when every face of the three objects resolves. *)
Theorem draw_main_objects files :
  let bottom := Obj_of_file (files "mezzanine_bottom.obj") in
  let stairs := Obj_of_file (files "mezzanine_stairs.obj") in
  let top := Obj_of_file (files "mezzanine_top.obj") in
  map_find "bottom" (main_objects files) = Some bottom /\
  map_find "stairs" (main_objects files) = Some stairs /\
  map_find "top" (main_objects files) = Some top /\
  (draw (main_objects files) <> None <->
   Forall (face_resolves bottom) (faces bottom) /\
   Forall (face_resolves stairs) (faces stairs) /\
   Forall (face_resolves top) (faces top)).
Proof.
  intros bottom stairs top.
  destruct (main_objects_find files) as [Eb [Es Et]].
  fold bottom in Eb. fold stairs in Es. fold top in Et.
  split; [exact Eb|]. split; [exact Es|]. split; [exact Et|].
  unfold draw, draw_object. rewrite Eb, Es, Et.
  rewrite <- !toBuffer_resolves.
  destruct (toBuffer bottom), (toBuffer stairs), (toBuffer top);
    split; try discriminate; try (intros H; contradiction H; reflexivity);
    try (intros [H1 [H2 H3]];
         first [contradiction H1; reflexivity | contradiction H2; reflexivity
               | contradiction H3; reflexivity]).
  intros _. repeat split; discriminate.
Qed.

End Drawing.
